(** * Resume analyzer front end: the [App] component of frontend/src/App.js

    The component keeps four pieces of state, posts the selected file to the
    analysis endpoint and projects the JSON answer onto three optional
    blocks.  This development embeds

    - the values the component reads out of the parsed response, with the
      truthiness test, the property reads and the exceptions of the runtime,
    - the element tree that the component function returns,
    - the two event handlers as small effectful scripts, and the event loop
      that interleaves them with the settlement of the pending request,

    and proves the behavioural properties of the component over them. *)

From Stdlib Require Import QArith.
From stdpp Require Import base option list strings gmap.

Set Warnings "-register-all".
Local Open Scope string_scope.

(** ** Runtime values *)

(** What [response.data] can hold after the response body has been parsed:
    the JSON values, and [undefined] for what a property read finds missing.
    A number is kept by its numeric value; the component observes a number
    only through the tests [!x] and [x > 0], and the length of a string only
    through [x > 0]. *)
Inductive value : Type :=
| VUndefined
| VNull
| VBool (b : bool)
| VNum (q : Q)
| VStr (s : string)
| VArr (items : list value)
| VObj (fields : gmap string value).

(** Exceptions raised by the runtime while the component function runs. *)
Inductive exn : Type :=
| TypeError.

(** The completion of an expression: a value, or a thrown exception. *)
Inductive completion (A : Type) : Type :=
| Normal (a : A)
| Throw (e : exn).
Arguments Normal {A} a.
Arguments Throw {A} e.

#[global] Instance completion_ret : MRet completion := fun A a => Normal a.
#[global] Instance completion_bind : MBind completion := fun A B f m =>
  match m with
  | Normal a => f a
  | Throw e => Throw e
  end.

Definition is_normal {A : Type} (c : completion A) : bool :=
  match c with
  | Normal _ => true
  | Throw _ => false
  end.

(** ToBoolean, as used by [!x], [x && y] and [x ? y : z]. *)
Definition truthy (v : value) : bool :=
  match v with
  | VUndefined | VNull => false
  | VBool b => b
  | VNum q => negb (Qeq_bool q 0)
  | VStr s => negb (String.eqb s "")
  | VArr _ | VObj _ => true
  end.

(** [undefined] and [null]: the two values a property read throws on. *)
Definition nullish (v : value) : bool :=
  match v with
  | VUndefined | VNull => true
  | _ => false
  end.

Definition number_of_nat (n : nat) : value := VNum (inject_Z (Z.of_nat n)).

(** The property read [v.k].  It throws on [undefined] and [null]; on an
    object it finds the own property or [undefined]; arrays and strings
    carry [length]; the other primitives have no property of these names.
    The definition is exact for the keys the component reads
    ([extracted_text], [analysis], [key_sections], the three flags,
    [improvement_suggestions], [length], [suggestion]): none of them is an
    index or an inherited member. *)
Definition get_prop (v : value) (k : string) : completion value :=
  match v with
  | VUndefined | VNull => Throw TypeError
  | VObj fields => Normal (default VUndefined (fields !! k))
  | VArr items =>
      Normal (if decide (k = "length") then number_of_nat (length items)
              else VUndefined)
  | VStr s =>
      Normal (if decide (k = "length") then number_of_nat (String.length s)
              else VUndefined)
  | VBool _ | VNum _ => Normal VUndefined
  end.

(** The callbacks of [Array.prototype.map] run in index order and the first
    exception ends the call. *)
Fixpoint map_items {A : Type} (f : value -> nat -> completion A)
    (index : nat) (items : list value) : completion (list A) :=
  match items with
  | [] => Normal []
  | item :: rest =>
      y ← f item index;
      ys ← map_items f (S index) rest;
      Normal (y :: ys)
  end.

(** The method call [v.map(f)].  Only an array has a callable [map]: the
    read throws on [undefined] and [null], a string or another primitive has
    no such member, and an own property [map] of a parsed object holds data,
    never a function, so the call throws in each of these cases. *)
Definition call_map {A : Type} (v : value) (f : value -> nat -> completion A)
    : completion (list A) :=
  match v with
  | VArr items => map_items f 0 items
  | _ => Throw TypeError
  end.

(** ** Element trees *)

Inductive handler : Type :=
| HandleFileChange
| HandleUpload.

Inductive attr : Type :=
| AStr (s : string)
| ABool (b : bool)
| AIndex (i : nat)
| AHandler (h : handler).

(** What a JSX expression evaluates to: an element with its props and
    children, or the value of an embedded expression.  JSX text is a string
    child.  The array that [map] returns is spliced into the children of its
    parent, as the renderer does.  The tree is what the component function
    returns; [displayable] below tells which embedded values the renderer
    accepts. *)
Inductive node : Type :=
| Val (v : value)
| Elem (tag : string) (props : list (string * attr)) (children : list node).

Definition Text (s : string) : node := Val (VStr s).

Definition className (c : string) : list (string * attr) :=
  [("className", AStr c)].

(** Whether a child is the element carrying the given class. *)
Definition is_block (c : string) (n : node) : bool :=
  match n with
  | Elem _ props _ =>
      match props !! 0 with
      | Some ("className", AStr c') => bool_decide (c' = c)
      | _ => false
      end
  | Val _ => false
  end.

Definition children_of (n : node) : list node :=
  match n with
  | Elem _ _ children => children
  | Val _ => []
  end.

(** The text of a line whose children are all strings. *)
Fixpoint line_text (children : list node) : option string :=
  match children with
  | [] => Some ""
  | Val (VStr s) :: rest => (fun t => s +:+ t) <$> line_text rest
  | _ => None
  end.

(** ** Component state, files and requests *)

(** A [File] as the file input hands it over: opaque to the component. *)
Record File : Type := mkFile {
  file_name : string;
  file_bytes : list Byte.byte
}.

(** The contents of the [selectedFile] cell: [null] from [useState(null)],
    [undefined] when [files[0]] reads past an empty list, or a file. *)
Inductive selection : Type :=
| SelNull
| SelUndefined
| SelFile (f : File).

Record state : Type := mkState {
  selectedFile : selection;
  analysisResult : value;
  loading : bool;
  error : option string
}.

(** [useState(null)], [useState(null)], [useState(false)], [useState(null)]. *)
Definition initial_state : state :=
  {| selectedFile := SelNull; analysisResult := VNull;
     loading := false; error := None |}.

(** The [error] cell as a runtime value: [null] or a string. *)
Definition error_value (e : option string) : value :=
  match e with
  | None => VNull
  | Some s => VStr s
  end.

Record response : Type := mkResponse {
  status : Z;
  data : value
}.

(** What the promise of [axios.post] rejects with.  Of the error object
    the component reads [response] only: it is set when the server answered,
    and missing when no answer arrived. *)
Record axios_error : Type := mkError {
  err_response : option response
}.

Inductive settled : Type :=
| Fulfilled (resp : response)
| Rejected (err : axios_error).

(** A [FormData] is the ordered list of its entries. *)
Definition FormData : Type := list (string * File).

Definition append (form : FormData) (name : string) (f : File) : FormData :=
  (form ++ [(name, f)])%list.

Record request : Type := mkRequest {
  method : string;
  url : string;
  body : FormData;
  headers : list (string * string)
}.

(** How the library settles a call: the component passes no [validateStatus]
    option, so the promise is fulfilled for a status in 200..299 and
    rejected, with the response attached, for any other; without an answer
    it is rejected with no response. *)
Inductive http_outcome : Type :=
| NoAnswer
| Answer (resp : response).

Definition validateStatus (s : Z) : bool := ((200 <=? s) && (s <? 300))%Z.

Definition axios_settles (o : http_outcome) : settled :=
  match o with
  | NoAnswer => Rejected {| err_response := None |}
  | Answer resp =>
      if validateStatus (status resp) then Fulfilled resp
      else Rejected {| err_response := Some resp |}
  end.

(** ** The handlers as scripts *)

(** What [console.error] is given after its label. *)
Inductive logged : Type :=
| LogError (err : axios_error)
| LogValue (v : value).

Inductive action : Type :=
| setSelectedFile (s : selection)
| setAnalysisResult (v : value)
| setLoading (b : bool)
| setError (e : option string)
| console_error (label : string) (detail : logged).

(** A handler body: actions in sequence, with one kind of suspension point,
    the [await] of a posted request, whose continuation receives how the
    promise settled. *)
Inductive script : Type :=
| Return
| Do (a : action) (k : script)
| AwaitPost (req : request) (k : settled -> script).

Notation "a >> k" := (Do a k) (at level 62, right associativity).

Definition no_file_message : string := "Please select a resume file.".
Definition upload_failed_message : string :=
  "Failed to upload and analyze the resume. Please try again.".
Definition analyze_url : string := "http://localhost:5000/analyze/".

(** [event.target.files[0]] *)
Definition first_file (files : list File) : selection :=
  match files !! 0 with
  | Some f => SelFile f
  | None => SelUndefined
  end.

Definition handleFileChange (files : list File) : script :=
  setSelectedFile (first_file files) >> Return.

Definition upload_request (f : File) : request :=
  {| method := "POST";
     url := analyze_url;
     body := append [] "file" f;
     headers := [("Content-Type", "multipart/form-data")] |}.

(** The [finally] block. *)
Definition upload_finally : script := setLoading false >> Return.

(** What follows the [await]: the rest of the [try] block when the promise
    is fulfilled, the [catch] block when it is rejected, and the [finally]
    block after either. *)
Definition upload_continuation (s : settled) : script :=
  match s with
  | Fulfilled resp =>
      setAnalysisResult (data resp) >> upload_finally
  | Rejected err =>
      console_error "Error uploading resume:" (LogError err) >>
      setError (Some upload_failed_message) >>
      match err_response err with
      | Some resp =>
          console_error "Backend error:" (LogValue (data resp)) >>
          upload_finally
      | None => upload_finally
      end
  end.

Definition handleUpload (sel : selection) : script :=
  match sel with
  | SelNull | SelUndefined =>
      setError (Some no_file_message) >> Return
  | SelFile f =>
      setLoading true >>
      setError None >>
      setAnalysisResult VNull >>
      AwaitPost (upload_request f) upload_continuation
  end.

(** The effect of one action on the four cells; logging leaves them alone. *)
Definition set_state (a : action) (st : state) : state :=
  match a with
  | setSelectedFile s =>
      {| selectedFile := s; analysisResult := analysisResult st;
         loading := loading st; error := error st |}
  | setAnalysisResult v =>
      {| selectedFile := selectedFile st; analysisResult := v;
         loading := loading st; error := error st |}
  | setLoading b =>
      {| selectedFile := selectedFile st; analysisResult := analysisResult st;
         loading := b; error := error st |}
  | setError e =>
      {| selectedFile := selectedFile st; analysisResult := analysisResult st;
         loading := loading st; error := e |}
  | console_error _ _ => st
  end.

(** ** Running a script *)

(** The component in its surroundings: the four cells, the continuations of
    the requests that are still awaited, every request issued so far, the
    console, and whether the tree is still mounted. *)
Record world : Type := mkWorld {
  ui : state;
  pending : list (settled -> script);
  posted : list request;
  console : list (string * logged);
  mounted : bool
}.

Definition initial_world : world :=
  {| ui := initial_state; pending := []; posted := []; console := [];
     mounted := true |}.

Definition perform (a : action) (w : world) : world :=
  {| ui := set_state a (ui w);
     pending := pending w;
     posted := posted w;
     console :=
       match a with
       | console_error label detail => (console w ++ [(label, detail)])%list
       | _ => console w
       end;
     mounted := mounted w |}.

(** A script runs up to its end or to its suspension point; there the
    request goes out and the continuation waits for the settlement. *)
Fixpoint run (p : script) (w : world) : world :=
  match p with
  | Return => w
  | Do a k => run k (perform a w)
  | AwaitPost req k =>
      {| ui := ui w;
         pending := (pending w ++ [k])%list;
         posted := (posted w ++ [req])%list;
         console := console w;
         mounted := mounted w |}
  end.

(** One handler run from its call to its end, with the awaited promise
    settling as [s]: the state reached and the requests issued on the way. *)
Fixpoint run_through (p : script) (s : settled) (st : state)
    : state * list request :=
  match p with
  | Return => (st, [])
  | Do a k => run_through k s (set_state a st)
  | AwaitPost req k =>
      let '(st', reqs) := run_through (k s) s st in (st', req :: reqs)
  end.

(** ** Sample data *)

(** The response of the worked example of the specification. *)
Definition sample_response : value :=
  VObj (list_to_map
    [("extracted_text", VStr "Hello");
     ("analysis",
      VObj (list_to_map
        [("key_sections",
          VObj (list_to_map
            [("education_present", VBool true);
             ("experience_present", VBool false);
             ("skills_present", VBool true)]))]));
     ("improvement_suggestions",
      VArr [VObj (list_to_map [("suggestion", VStr "Add metrics")])])]).

(** A response whose [analysis] lacks [key_sections]. *)
Definition analysis_without_key_sections : value :=
  VObj (list_to_map [("analysis", VObj ∅)]).

Definition sample_file : File :=
  {| file_name := "resume.pdf"; file_bytes := [Byte.x25; Byte.x50; Byte.x44; Byte.x46] |}.

(** One way the runtime may convert: nothing converts to a positive
    number. *)
Definition never_positive (v : value) : completion bool := Normal false.

(** A world in which a result is on display, the file input has since been
    emptied, and a first submit attempt has been refused. *)
Definition stale_result_world : world :=
  {| ui := {| selectedFile := SelUndefined;
              analysisResult := sample_response;
              loading := false;
              error := Some no_file_message |};
     pending := [];
     posted := [upload_request sample_file];
     console := [];
     mounted := true |}.

(** A world in which the request for the sample file is awaited. *)
Definition awaiting_world : world :=
  {| ui := {| selectedFile := SelFile sample_file;
              analysisResult := VNull;
              loading := true;
              error := None |};
     pending := [upload_continuation];
     posted := [upload_request sample_file];
     console := [];
     mounted := true |}.

Definition server_error : axios_error :=
  {| err_response := Some {| status := 500; data := VStr "Internal error" |} |}.

Section Component.

(** The comparison [v > 0] converts a string, an array or an object to a
    number first, and the conversion of an object may throw.  That part of
    the runtime is left open: every result below holds for each way it can
    behave. *)
Variable coerced_gt_zero : value -> completion bool.

(** [v > 0] *)
Definition gt_zero (v : value) : completion bool :=
  match v with
  | VUndefined | VNull => Normal false
  | VBool b => Normal b
  | VNum q => Normal (negb (Qle_bool q 0))
  | VStr _ | VArr _ | VObj _ => coerced_gt_zero v
  end.

(** ** The result renderer *)

(** [{analysisResult.extracted_text && (...)}] *)
Definition extracted_text_block (r : value) : completion node :=
  text ← get_prop r "extracted_text";
  if truthy text then
    Normal (Elem "div" (className "extracted-text")
              [Elem "h3" [] [Text "Extracted Text"];
               Elem "pre" [] [Val text]])
  else Normal (Val text).

(** [analysisResult.analysis.key_sections.<flag> ? 'Yes' : 'No'] *)
Definition flag_text (r : value) (flag : string) : completion node :=
  analysis ← get_prop r "analysis";
  key_sections ← get_prop analysis "key_sections";
  present ← get_prop key_sections flag;
  Normal (Text (if truthy present then "Yes" else "No")).

(** [{analysisResult.analysis && (...)}] *)
Definition key_sections_block (r : value) : completion node :=
  analysis ← get_prop r "analysis";
  if truthy analysis then
    education ← flag_text r "education_present";
    experience ← flag_text r "experience_present";
    skills ← flag_text r "skills_present";
    Normal (Elem "div" (className "key-sections-analysis")
              [Elem "h3" [] [Text "Key Sections Analysis"];
               Elem "p" [] [Text "Education Present: "; education];
               Elem "p" [] [Text "Experience Present: "; experience];
               Elem "p" [] [Text "Skills Present: "; skills]])
  else Normal (Val analysis).

(** [(suggestion, index) => <li key={index}>{suggestion.suggestion}</li>] *)
Definition suggestion_item (suggestion : value) (index : nat)
    : completion node :=
  text ← get_prop suggestion "suggestion";
  Normal (Elem "li" [("key", AIndex index)] [Val text]).

(** [{analysisResult.improvement_suggestions &&
      analysisResult.improvement_suggestions.length > 0 && (...)}] *)
Definition suggestions_block (r : value) : completion node :=
  suggestions ← get_prop r "improvement_suggestions";
  if truthy suggestions then
    len ← get_prop suggestions "length";
    nonempty ← gt_zero len;
    if (nonempty : bool) then
      items ← call_map suggestions suggestion_item;
      Normal (Elem "div" (className "improvement-suggestions")
                [Elem "h3" [] [Text "Improvement Suggestions"];
                 Elem "ul" [] items])
    else Normal (Val (VBool false))
  else Normal (Val suggestions).

(** [{analysisResult && (...)}] *)
Definition results_section (r : value) : completion node :=
  if truthy r then
    text_block ← extracted_text_block r;
    key_block ← key_sections_block r;
    list_block ← suggestions_block r;
    Normal (Elem "div" (className "results-section")
              [Elem "h2" [] [Text "Analysis Results"];
               text_block; key_block; list_block])
  else Normal (Val r).

(** [{error && <p className="error-message">{error}</p>}] *)
Definition error_paragraph (e : option string) : node :=
  if truthy (error_value e) then
    Elem "p" (className "error-message") [Val (error_value e)]
  else Val (error_value e).

Definition submit_button (st : state) : node :=
  Elem "button"
    [("onClick", AHandler HandleUpload); ("disabled", ABool (loading st))]
    [Text (if loading st then "Analyzing..." else "Analyze Resume")].

Definition upload_section (st : state) : node :=
  Elem "div" (className "upload-section")
    [Elem "input"
       [("type", AStr "file"); ("accept", AStr ".pdf");
        ("onChange", AHandler HandleFileChange)] [];
     submit_button st;
     error_paragraph (error st)].

(** The element tree the component function returns for a state. *)
Definition App (st : state) : completion node :=
  results ← results_section (analysisResult st);
  Normal (Elem "div" (className "app-container")
            [Elem "h1" [] [Text "Resume Analyzer"];
             upload_section st;
             results]).

(** The [disabled] attribute of the submit control in a rendered tree. *)
Definition button_disabled (tree : node) : option bool :=
  match children_of tree !! 1 with
  | Some upload =>
      match children_of upload !! 1 return option bool with
      | Some (Elem "button" props _) =>
          match props !! 1 with
          | Some ("disabled", ABool b) => Some b
          | _ => None
          end
      | _ => None
      end
  | None => None
  end.

(** The error paragraph slot of a rendered tree. *)
Definition error_slot (tree : node) : option node :=
  match children_of tree !! 1 with
  | Some upload => children_of upload !! 2
  | None => None
  end.

(** The results slot of a rendered tree, and the three block slots in it. *)
Definition results_slot (tree : node) : option node := children_of tree !! 2.

Definition block_slot (i : nat) (tree : node) : option node :=
  match results_slot tree with
  | Some results => children_of results !! i
  | None => None
  end.

(** ** The event loop *)

Inductive event : Type :=
| FileChosen (files : list File)
| SubmitClicked
| PostSettled (i : nat) (s : settled).

(** After the cells changed the component function runs again; when it
    throws, the tree is taken down for good. *)
Definition rerender (w : world) : world :=
  {| ui := ui w; pending := pending w; posted := posted w;
     console := console w;
     mounted := mounted w && is_normal (App (ui w)) |}.

(** A click reaches [handleUpload] only through a mounted button that is
    not disabled. *)
Definition clickable (w : world) : bool :=
  mounted w &&
  match App (ui w) with
  | Normal tree => bool_decide (button_disabled tree = Some false)
  | Throw _ => false
  end.

Definition take_pending (i : nat) (w : world) : world :=
  {| ui := ui w; pending := delete i (pending w); posted := posted w;
     console := console w; mounted := mounted w |}.

(** One turn of the loop: a user event runs its handler from the cells of
    the current render; a settlement resumes the continuation that waited
    for it.  [None] when the event cannot occur. *)
Definition step (e : event) (w : world) : option world :=
  match e with
  | FileChosen files =>
      if mounted w then Some (rerender (run (handleFileChange files) w))
      else None
  | SubmitClicked =>
      if clickable w
      then Some (rerender (run (handleUpload (selectedFile (ui w))) w))
      else None
  | PostSettled i s =>
      match pending w !! i with
      | Some k => Some (rerender (run (k s) (take_pending i w)))
      | None => None
      end
  end.

Fixpoint steps (es : list event) (w : world) : option world :=
  match es with
  | [] => Some w
  | e :: rest =>
      match step e w with
      | Some w' => steps rest w'
      | None => None
      end
  end.

Inductive reachable : world -> Prop :=
| reachable_initial : reachable initial_world
| reachable_step w e w' :
    reachable w -> step e w = Some w' -> reachable w'.

(** The value a property read yields, for a read that does not throw. *)
Definition read (v : value) (k : string) : value :=
  match get_prop v k with
  | Normal x => x
  | Throw _ => VUndefined
  end.

(** The list item the [map] callback builds for an element. *)
Definition list_item (index : nat) (suggestion : value) : node :=
  Elem "li" [("key", AIndex index)] [Val (read suggestion "suggestion")].

(** An element of the suggestions sequence that the callback can read. *)
Definition well_formed_item (item : value) : Prop := nullish item = false.

(** The suggestions block over the elements of a sequence. *)
Definition suggestions_element (items : list value) : node :=
  Elem "div" (className "improvement-suggestions")
    [Elem "h3" [] [Text "Improvement Suggestions"];
     Elem "ul" [] (imap list_item items)].

(** [selectedFile] holds a file: the guard [!selectedFile] fails. *)
Definition has_file (sel : selection) : bool :=
  match sel with
  | SelFile _ => true
  | SelNull | SelUndefined => false
  end.

(** While [loading] holds, one request is awaited, by the continuation of
    [handleUpload], and error and result are cleared; otherwise nothing is
    awaited. *)
Definition request_invariant (w : world) : Prop :=
  (loading (ui w) = true /\ pending w = [upload_continuation] /\
   analysisResult (ui w) = VNull /\ error (ui w) = None) \/
  (loading (ui w) = false /\ pending w = []).

(** Several file selections in a row. *)
Definition choose_files (choices : list (list File)) (w : world) : world :=
  foldl (fun w files => run (handleFileChange files) w) w choices.

(** What a turn of the loop writes to the console: the two [console.error]
    calls of the [catch] block, the second only when the error carries a
    response. *)
Definition failure_log (e : event) : list (string * logged) :=
  match e with
  | PostSettled _ (Rejected err) =>
      ("Error uploading resume:", LogError err) ::
      match err_response err with
      | Some resp => [("Backend error:", LogValue (data resp))]
      | None => []
      end
  | _ => []
  end.

(** The two messages [setError] is ever given. *)
Definition known_error (e : option string) : Prop :=
  e = None \/
  e = Some "Please select a resume file." \/
  e = Some "Failed to upload and analyze the resume. Please try again.".

(** The shape of every request the component issues. *)
Definition analyze_request (req : request) : Prop :=
  method req = "POST" /\
  url req = "http://localhost:5000/analyze/" /\
  headers req = [("Content-Type", "multipart/form-data")] /\
  exists f, body req = [("file", f)].

(** ['Yes'] or ['No'] by the truthiness of a flag. *)
Definition yes_no (flag : value) : string :=
  if truthy flag then "Yes" else "No".

(** What the renderer accepts as the value of a child: text, a number, a
    boolean, [null], [undefined], or an array of such; a plain object is
    refused, and takes the tree down like an exception of the component. *)
Fixpoint displayable_value (v : value) : bool :=
  match v with
  | VObj _ => false
  | VArr items => forallb displayable_value items
  | _ => true
  end.

(** A tree all of whose embedded values the renderer accepts. *)
Fixpoint displayable (n : node) : bool :=
  match n with
  | Val v => displayable_value v
  | Elem _ _ children => forallb displayable children
  end.

(** An element of the suggestions sequence that the callback can read and
    whose [suggestion] can be shown. *)
Definition presentable_item (item : value) : Prop :=
  nullish item = false /\
  displayable_value (read item "suggestion") = true.

(** A result the page can show: a truthy [extracted_text] can be shown,
    [key_sections] is there whenever [analysis] is truthy, and
    [improvement_suggestions] is falsy or an array of presentable
    elements.  Every response of the expected shape is one. *)
Definition presentable_result (r : value) : Prop :=
  (truthy (read r "extracted_text") = true ->
   displayable_value (read r "extracted_text") = true) /\
  (truthy (read r "analysis") = true ->
   nullish (read (read r "analysis") "key_sections") = false) /\
  (truthy (read r "improvement_suggestions") = false \/
   exists items,
     read r "improvement_suggestions" = VArr items /\
     Forall presentable_item items).

(** The world after a successful answer whose [analysis] lacks
    [key_sections]: the tree has been taken down. *)
Definition crashed_world : world :=
  {| ui := {| selectedFile := SelFile sample_file;
              analysisResult := analysis_without_key_sections;
              loading := false;
              error := None |};
     pending := [];
     posted := [upload_request sample_file];
     console := [];
     mounted := false |}.

(** A response whose suggestions hold a [null] element. *)
Definition suggestions_with_null : value :=
  VObj (list_to_map
    [("improvement_suggestions",
      VArr [VObj (list_to_map [("suggestion", VStr "Add metrics")]);
            VNull])]).

(** A successful answer carrying the sample response. *)
Definition sample_ok_response : response :=
  {| status := 200; data := sample_response |}.

(** The world right after the sample file has been chosen. *)
Definition file_chosen_world : world :=
  {| ui := {| selectedFile := SelFile sample_file;
              analysisResult := VNull;
              loading := false;
              error := None |};
     pending := [];
     posted := [];
     console := [];
     mounted := true |}.

(** * Properties *)

(** ** Values *)

Lemma truthy_not_nullish (v : value) : truthy v = true -> nullish v = false.
Proof. by destruct v. Qed.

Lemma get_prop_read (v : value) (k : string) :
  nullish v = false -> get_prop v k = Normal (read v k).
Proof. unfold read. by destruct v. Qed.

Lemma get_prop_nullish (v : value) (k : string) :
  nullish v = true -> get_prop v k = Throw TypeError.
Proof. by destruct v. Qed.

Lemma truthy_empty_string : truthy (VStr "") = false.
Proof. reflexivity. Qed.

Lemma truthy_nonempty_string (s : string) : s ≠ "" -> truthy (VStr s) = true.
Proof. intros Hs. destruct s; [done | reflexivity]. Qed.

Lemma array_length_positive (items : list value) :
  gt_zero (read (VArr items) "length") = Normal (bool_decide (items ≠ [])).
Proof. destruct items; [done |]. cbn. case_decide; [reflexivity | done]. Qed.

(** ** The three blocks *)

Lemma bind_normal {A B : Type} (a : A) (f : A -> completion B) :
  Normal a ≫= f = f a.
Proof. reflexivity. Qed.

Lemma bind_throw {A B : Type} (e : exn) (f : A -> completion B) :
  Throw e ≫= f = Throw e.
Proof. reflexivity. Qed.

Lemma map_items_cons {A : Type} (f : value -> nat -> completion A)
    (k : nat) (item : value) (rest : list value) :
  map_items f k (item :: rest) =
  f item k ≫= fun y => map_items f (S k) rest ≫= fun ys => Normal (y :: ys).
Proof. reflexivity. Qed.

Lemma suggestion_item_read (item : value) (k : nat) :
  nullish item = false -> suggestion_item item k = Normal (list_item k item).
Proof.
  intros Hitem. unfold suggestion_item.
  by rewrite (get_prop_read _ _ Hitem), bind_normal.
Qed.

Lemma suggestion_item_nullish (item : value) (k : nat) :
  nullish item = true -> suggestion_item item k = Throw TypeError.
Proof.
  intros Hitem. unfold suggestion_item.
  by rewrite (get_prop_nullish _ _ Hitem), bind_throw.
Qed.

Lemma imap_list_item_shift (k : nat) (rest : list value) :
  imap ((fun i => list_item (k + i)) ∘ S) rest =
  imap (fun i => list_item (S k + i)) rest.
Proof. apply imap_ext. intros i x _. cbn. by rewrite Nat.add_succ_r. Qed.

Lemma map_items_suggestions (items : list value) :
  forall (k : nat) (lis : list node),
    map_items suggestion_item k items = Normal lis ->
    Forall well_formed_item items /\
    lis = imap (fun i => list_item (k + i)) items.
Proof.
  induction items as [| item rest IH]; intros k lis Hmap.
  - by inversion Hmap.
  - rewrite map_items_cons in Hmap.
    destruct (nullish item) eqn:Hitem.
    + by rewrite (suggestion_item_nullish _ _ Hitem), bind_throw in Hmap.
    + rewrite (suggestion_item_read _ _ Hitem), bind_normal in Hmap.
      destruct (map_items suggestion_item (S k) rest) as [lis' |] eqn:Hrest;
        [| done].
      destruct (IH _ _ Hrest) as [Hwf ->].
      rewrite bind_normal in Hmap. inversion Hmap; subst lis.
      split; [by constructor |].
      rewrite imap_cons, Nat.add_0_r. f_equal.
      by rewrite imap_list_item_shift.
Qed.

Lemma map_items_well_formed (items : list value) :
  forall k : nat,
    Forall well_formed_item items ->
    map_items suggestion_item k items =
    Normal (imap (fun i => list_item (k + i)) items).
Proof.
  induction items as [| item rest IH]; intros k Hwf; [done |].
  inversion Hwf as [| ? ? Hitem Hrest]; subst.
  rewrite map_items_cons, (suggestion_item_read _ _ Hitem), bind_normal.
  rewrite (IH _ Hrest), bind_normal.
  by rewrite imap_cons, Nat.add_0_r, imap_list_item_shift.
Qed.

(** On an array the block is decided by emptiness alone. *)
Lemma suggestions_block_array (r : value) (items : list value) :
  nullish r = false ->
  read r "improvement_suggestions" = VArr items ->
  suggestions_block r =
  match items with
  | [] => Normal (Val (VBool false))
  | _ => lis ← map_items suggestion_item 0 items;
         Normal (Elem "div" (className "improvement-suggestions")
                   [Elem "h3" [] [Text "Improvement Suggestions"];
                    Elem "ul" [] lis])
  end.
Proof.
  intros Hr Hs. unfold suggestions_block.
  rewrite (get_prop_read _ _ Hr), Hs, bind_normal.
  change (truthy (VArr items)) with true. cbv iota.
  rewrite (get_prop_read (VArr items)), bind_normal by done.
  rewrite array_length_positive, bind_normal.
  destruct items; done.
Qed.

(** On anything else the expression yields no element. *)
Lemma suggestions_block_other (r : value) (n : node) :
  nullish r = false ->
  (forall items, read r "improvement_suggestions" ≠ VArr items) ->
  suggestions_block r = Normal n ->
  exists v, n = Val v.
Proof.
  intros Hr Hnot. unfold suggestions_block.
  rewrite (get_prop_read _ _ Hr).
  destruct (read r "improvement_suggestions") as [| | b | q | s | l | m];
    cbn; try (intros [= <-]; eauto; fail).
  - destruct b; cbn; intros [= <-]; eauto.
  - destruct (negb (Qeq_bool q 0)); cbn; intros [= <-]; eauto.
  - destruct (negb (String.eqb s "")); cbn; [| intros [= <-]; eauto].
    case_decide; [| done].
    destruct (gt_zero _) as [[] |]; cbn; [done | | done].
    intros [= <-]; eauto.
  - by destruct (Hnot l).
  - destruct (gt_zero _) as [[] |]; cbn; [done | | done].
    intros [= <-]; eauto.
Qed.

Lemma extracted_text_block_read (r : value) :
  nullish r = false ->
  extracted_text_block r =
  Normal (if truthy (read r "extracted_text")
          then Elem "div" (className "extracted-text")
                 [Elem "h3" [] [Text "Extracted Text"];
                  Elem "pre" [] [Val (read r "extracted_text")]]
          else Val (read r "extracted_text")).
Proof.
  intros Hr. unfold extracted_text_block.
  rewrite (get_prop_read _ _ Hr), bind_normal.
  by destruct (truthy _).
Qed.

(** A successful render of a truthy result holds the three block
    expressions, in order, after the heading of the results section. *)
Lemma App_block_slots (st : state) (tree : node) :
  truthy (analysisResult st) = true ->
  App st = Normal tree ->
  exists text_block key_block list_block,
    extracted_text_block (analysisResult st) = Normal text_block /\
    key_sections_block (analysisResult st) = Normal key_block /\
    suggestions_block (analysisResult st) = Normal list_block /\
    block_slot 1 tree = Some text_block /\
    block_slot 2 tree = Some key_block /\
    block_slot 3 tree = Some list_block.
Proof.
  intros Hr. unfold App, results_section. rewrite Hr.
  destruct (extracted_text_block _) as [t |]; [| done].
  destruct (key_sections_block _) as [k |]; [| done].
  destruct (suggestions_block _) as [s |]; [| done].
  rewrite !bind_normal. intros [= <-]. by exists t, k, s.
Qed.

Lemma App_throws (st : state) (e : exn) :
  truthy (analysisResult st) = true ->
  (extracted_text_block (analysisResult st) = Throw e \/
   is_normal (extracted_text_block (analysisResult st)) = true /\
   key_sections_block (analysisResult st) = Throw e) ->
  App st = Throw e.
Proof.
  intros Hr Hthrow. unfold App, results_section. rewrite Hr.
  destruct Hthrow as [-> | [Hn ->]]; [done |].
  by destruct (extracted_text_block _).
Qed.

(** C4: for the response of the worked example the renderer produces the
    extracted-text block around "Hello", the three lines "Education Present:
    Yes", "Experience Present: No" and "Skills Present: Yes", and a list with
    the single item "Add metrics". *)
Theorem sample_response_rendering :
  results_section sample_response =
  Normal (Elem "div" (className "results-section")
    [Elem "h2" [] [Text "Analysis Results"];
     Elem "div" (className "extracted-text")
       [Elem "h3" [] [Text "Extracted Text"];
        Elem "pre" [] [Text "Hello"]];
     Elem "div" (className "key-sections-analysis")
       [Elem "h3" [] [Text "Key Sections Analysis"];
        Elem "p" [] [Text "Education Present: "; Text "Yes"];
        Elem "p" [] [Text "Experience Present: "; Text "No"];
        Elem "p" [] [Text "Skills Present: "; Text "Yes"]];
     Elem "div" (className "improvement-suggestions")
       [Elem "h3" [] [Text "Improvement Suggestions"];
        Elem "ul" [] [Elem "li" [("key", AIndex 0)] [Text "Add metrics"]]]])
  /\ line_text [Text "Education Present: "; Text "Yes"] =
     Some "Education Present: Yes"
  /\ line_text [Text "Experience Present: "; Text "No"] =
     Some "Experience Present: No"
  /\ line_text [Text "Skills Present: "; Text "Yes"] =
     Some "Skills Present: Yes".
Proof. repeat split; vm_compute; reflexivity. Qed.

(** C7: the extracted-text block is rendered exactly when [extracted_text]
    is truthy: the block expression of a result yields the element, around
    the text, when the field is truthy and the bare field value otherwise,
    and a successful render carries that in its first block slot.  The empty
    string gives no block; every non-empty string gives one. *)
Theorem extracted_text_block_iff_truthy (r : value) :
  truthy r = true ->
  exists n,
    extracted_text_block r = Normal n /\
    is_block "extracted-text" n = truthy (read r "extracted_text") /\
    (forall st tree,
        analysisResult st = r -> App st = Normal tree ->
        block_slot 1 tree = Some n) /\
    (read r "extracted_text" = VStr "" ->
     is_block "extracted-text" n = false) /\
    (forall s, s ≠ "" -> read r "extracted_text" = VStr s ->
     n = Elem "div" (className "extracted-text")
           [Elem "h3" [] [Text "Extracted Text"]; Elem "pre" [] [Text s]]).
Proof.
  intros Hr. pose proof (truthy_not_nullish _ Hr) as Hnn.
  pose proof (extracted_text_block_read _ Hnn) as Hblock.
  eexists. split; [exact Hblock |].
  split; [by destruct (truthy (read r "extracted_text")) |].
  split.
  - intros st tree <- Htree.
    destruct (App_block_slots _ _ Hr Htree) as (t & k & s & Ht & _ & _ & Hs & _).
    rewrite Hblock in Ht. injection Ht as <-. exact Hs.
  - split.
    + by intros ->.
    + intros s Hs ->. by rewrite (truthy_nonempty_string _ Hs).
Qed.

Lemma flag_text_read (r : value) (flag : string) :
  nullish r = false ->
  nullish (read r "analysis") = false ->
  flag_text r flag =
  if nullish (read (read r "analysis") "key_sections") then Throw TypeError
  else Normal (Text (if truthy (read (read (read r "analysis") "key_sections")
                                  flag)
                     then "Yes" else "No")).
Proof.
  intros Hr Ha. unfold flag_text.
  rewrite (get_prop_read _ _ Hr), bind_normal.
  rewrite (get_prop_read _ _ Ha), bind_normal.
  destruct (nullish (read (read r "analysis") "key_sections")) eqn:Hks.
  - by rewrite (get_prop_nullish _ _ Hks).
  - by rewrite (get_prop_read _ _ Hks), bind_normal.
Qed.

(** C9: the key-sections block reads the flags through
    [analysis.key_sections] unguarded.  For a result whose [analysis] is
    truthy, the block, and with it the whole render, throws a TypeError when
    [key_sections] is [undefined] or [null], and the block evaluates when it
    is anything else; so a render that succeeds on such a result has found
    [key_sections] present. *)
Theorem key_sections_block_needs_key_sections (r : value) :
  truthy r = true ->
  truthy (read r "analysis") = true ->
  (nullish (read (read r "analysis") "key_sections") = true ->
     key_sections_block r = Throw TypeError /\
     forall st, analysisResult st = r -> App st = Throw TypeError) /\
  (nullish (read (read r "analysis") "key_sections") = false ->
     is_normal (key_sections_block r) = true) /\
  (forall st, analysisResult st = r -> is_normal (App st) = true ->
     nullish (read (read r "analysis") "key_sections") = false).
Proof.
  intros Hr Ha.
  pose proof (truthy_not_nullish _ Hr) as Hrn.
  pose proof (truthy_not_nullish _ Ha) as Han.
  assert (Hblock : nullish (read (read r "analysis") "key_sections") = true ->
                   key_sections_block r = Throw TypeError).
  { intros Hks. unfold key_sections_block.
    rewrite (get_prop_read _ _ Hrn), bind_normal, Ha.
    by rewrite (flag_text_read r "education_present" Hrn Han), Hks. }
  assert (Happ : nullish (read (read r "analysis") "key_sections") = true ->
                 forall st, analysisResult st = r -> App st = Throw TypeError).
  { intros Hks st <-. apply App_throws; [done |]. right.
    split; [| by apply Hblock].
    by rewrite (extracted_text_block_read _ Hrn). }
  split; [by split; auto |]. split.
  - intros Hks. unfold key_sections_block.
    rewrite (get_prop_read _ _ Hrn), bind_normal, Ha.
    by rewrite !(flag_text_read _ _ Hrn Han), Hks, !bind_normal.
  - intros st Hst Hnormal.
    destruct (nullish (read (read r "analysis") "key_sections")) eqn:Hks;
      [| done].
    by rewrite (Happ eq_refl st Hst) in Hnormal.
Qed.

Lemma suggestions_block_nonempty (r : value) (items : list value) (n : node) :
  nullish r = false ->
  read r "improvement_suggestions" = VArr items ->
  items ≠ [] ->
  suggestions_block r = Normal n ->
  n = suggestions_element items.
Proof.
  intros Hr Hs Hne. rewrite (suggestions_block_array _ _ Hr Hs).
  destruct items as [| item rest]; [done |].
  destruct (map_items suggestion_item 0 (item :: rest)) as [lis |] eqn:Hmap;
    [| done].
  destruct (map_items_suggestions _ _ _ Hmap) as [_ ->].
  rewrite bind_normal. by intros [= <-].
Qed.

(** C6: the suggestions block is rendered exactly when
    [improvement_suggestions] is a non-empty sequence, and then its list
    holds one item per element, in the order of the sequence, each keyed by
    its position and showing the [suggestion] of its element.  Whenever the
    block expression of a result evaluates, it yields that element for a
    non-empty array and no element for anything else; a successful render
    carries it in its third block slot; it does evaluate for an absent
    field, and for every array whose elements are objects. *)
Theorem suggestions_block_iff_nonempty (r : value) :
  truthy r = true ->
  (forall n, suggestions_block r = Normal n ->
     (is_block "improvement-suggestions" n = true <->
      exists items,
        read r "improvement_suggestions" = VArr items /\ items ≠ []) /\
     (forall items,
        read r "improvement_suggestions" = VArr items -> items ≠ [] ->
        n = Elem "div" (className "improvement-suggestions")
              [Elem "h3" [] [Text "Improvement Suggestions"];
               Elem "ul" [] (imap list_item items)]) /\
     (forall st tree,
        analysisResult st = r -> App st = Normal tree ->
        block_slot 3 tree = Some n)) /\
  (forall items,
     read r "improvement_suggestions" = VArr items ->
     Forall well_formed_item items ->
     is_normal (suggestions_block r) = true) /\
  (nullish (read r "improvement_suggestions") = true ->
     suggestions_block r = Normal (Val (read r "improvement_suggestions"))) /\
  (read r "improvement_suggestions" = VArr [] ->
     suggestions_block r = Normal (Val (VBool false))).
Proof.
  intros Hr. pose proof (truthy_not_nullish _ Hr) as Hrn.
  split; [| split; [| split]].
  - intros n Hn. split; [| split].
    + split.
      * intros Hblock.
        destruct (read r "improvement_suggestions") as [| | | | | items |]
          eqn:Hs;
          try (destruct (suggestions_block_other r n Hrn) as [v ->];
               [by rewrite Hs | done | done]).
        destruct items as [| item rest]; [| by eauto].
        rewrite (suggestions_block_array _ _ Hrn Hs) in Hn.
        by injection Hn as <-.
      * intros (items & Hs & Hne).
        by rewrite (suggestions_block_nonempty _ _ _ Hrn Hs Hne Hn).
    + intros items Hs Hne.
      exact (suggestions_block_nonempty _ _ _ Hrn Hs Hne Hn).
    + intros st tree <- Htree.
      destruct (App_block_slots _ _ Hr Htree)
        as (t & k & s & _ & _ & Hs & _ & _ & Hslot).
      rewrite Hn in Hs. injection Hs as <-. exact Hslot.
  - intros items Hs Hwf. rewrite (suggestions_block_array _ _ Hrn Hs).
    destruct items as [| item rest]; [done |].
    by rewrite (map_items_well_formed _ 0 Hwf).
  - intros Hnull. unfold suggestions_block.
    rewrite (get_prop_read _ _ Hrn), bind_normal.
    by destruct (read r "improvement_suggestions").
  - intros Hs. by rewrite (suggestions_block_array _ _ Hrn Hs).
Qed.

(** ** The handlers *)

Lemma run_handleUpload_without_file (sel : selection) (w : world) :
  has_file sel = false ->
  run (handleUpload sel) w =
  {| ui := {| selectedFile := selectedFile (ui w);
              analysisResult := analysisResult (ui w);
              loading := loading (ui w);
              error := Some no_file_message |};
     pending := pending w; posted := posted w; console := console w;
     mounted := mounted w |}.
Proof. by destruct sel. Qed.

Lemma run_handleUpload_with_file (f : File) (w : world) :
  run (handleUpload (SelFile f)) w =
  {| ui := {| selectedFile := selectedFile (ui w);
              analysisResult := VNull;
              loading := true;
              error := None |};
     pending := (pending w ++ [upload_continuation])%list;
     posted := (posted w ++ [upload_request f])%list;
     console := console w;
     mounted := mounted w |}.
Proof. reflexivity. Qed.

Lemma run_handleFileChange (files : list File) (w : world) :
  run (handleFileChange files) w =
  {| ui := {| selectedFile := first_file files;
              analysisResult := analysisResult (ui w);
              loading := loading (ui w);
              error := error (ui w) |};
     pending := pending w; posted := posted w; console := console w;
     mounted := mounted w |}.
Proof. reflexivity. Qed.

(** Whatever the settlement, the continuation ends with [loading] false,
    issues nothing and awaits nothing. *)
Lemma run_upload_continuation (s : settled) (w : world) :
  let w' := run (upload_continuation s) w in
  loading (ui w') = false /\
  selectedFile (ui w') = selectedFile (ui w) /\
  pending w' = pending w /\
  posted w' = posted w /\
  mounted w' = mounted w.
Proof. destruct s as [resp | [[resp |]]]; by cbn. Qed.

Lemma run_upload_continuation_rejected (err : axios_error) (w : world) :
  ui (run (upload_continuation (Rejected err)) w) =
  {| selectedFile := selectedFile (ui w);
     analysisResult := analysisResult (ui w);
     loading := false;
     error := Some upload_failed_message |}.
Proof. destruct err as [[resp |]]; by cbn. Qed.

Lemma run_upload_continuation_fulfilled (resp : response) (w : world) :
  ui (run (upload_continuation (Fulfilled resp)) w) =
  {| selectedFile := selectedFile (ui w);
     analysisResult := data resp;
     loading := false;
     error := error (ui w) |}.
Proof. reflexivity. Qed.

(** ** The rendered controls *)

Lemma App_button_disabled (st : state) (tree : node) :
  App st = Normal tree -> button_disabled tree = Some (loading st).
Proof.
  unfold App. destruct (results_section _) as [results |]; [| done].
  rewrite bind_normal. by intros [= <-].
Qed.

Lemma App_error_slot (st : state) (tree : node) :
  App st = Normal tree -> error_slot tree = Some (error_paragraph (error st)).
Proof.
  unfold App. destruct (results_section _) as [results |]; [| done].
  rewrite bind_normal. by intros [= <-].
Qed.

Lemma clickable_not_loading (w : world) :
  clickable w = true -> loading (ui w) = false.
Proof.
  unfold clickable. destruct (mounted w); [| done]. cbn.
  destruct (App (ui w)) as [tree |] eqn:Htree; [| done].
  rewrite (App_button_disabled _ _ Htree).
  intros Hb%bool_decide_eq_true. by injection Hb.
Qed.

(** ** Reachable worlds *)

Lemma request_invariant_rerender (w : world) :
  request_invariant w -> request_invariant (rerender w).
Proof. by intros H. Qed.

Lemma request_invariant_step (e : event) (w w' : world) :
  request_invariant w -> step e w = Some w' -> request_invariant w'.
Proof.
  intros Hinv Hstep. destruct e as [files | | i s]; unfold step in Hstep.
  - destruct (mounted w); [| done]. injection Hstep as <-.
    apply request_invariant_rerender. exact Hinv.
  - destruct (clickable w) eqn:Hclick; [| done]. injection Hstep as <-.
    apply request_invariant_rerender.
    pose proof (clickable_not_loading _ Hclick) as Hload.
    destruct Hinv as [[Hl _] | [_ Hp]]; [congruence |].
    destruct (selectedFile (ui w)) as [| | f] eqn:Hsel.
    + rewrite run_handleUpload_without_file by done. by right.
    + rewrite run_handleUpload_without_file by done. by right.
    + rewrite run_handleUpload_with_file. left. cbn. by rewrite Hp.
  - destruct (pending w !! i) as [k |] eqn:Hk; [| done].
    injection Hstep as <-. apply request_invariant_rerender.
    destruct Hinv as [(_ & Hp & _) | [_ Hp]]; rewrite Hp in Hk.
    + destruct i; [| done]. injection Hk as <-.
      destruct (run_upload_continuation s (take_pending 0 w))
        as (Hl & _ & Hp' & _).
      right. split; [exact Hl |]. rewrite Hp'. cbn. by rewrite Hp.
    + done.
Qed.

Lemma reachable_request_invariant (w : world) :
  reachable w -> request_invariant w.
Proof.
  induction 1 as [| w e w' _ IH Hstep]; [by right |].
  exact (request_invariant_step _ _ _ IH Hstep).
Qed.

Lemma steps_reachable (es : list event) :
  forall w w', reachable w -> steps es w = Some w' -> reachable w'.
Proof.
  induction es as [| e rest IH]; intros w w' Hw Hsteps; cbn in Hsteps.
  - by injection Hsteps as <-.
  - destruct (step e w) as [w1 |] eqn:Hstep; [| done].
    exact (IH _ _ (reachable_step _ _ _ Hw Hstep) Hsteps).
Qed.

Lemma awaiting_world_reachable : reachable awaiting_world.
Proof.
  apply (steps_reachable [FileChosen [sample_file]; SubmitClicked]
           initial_world); [constructor |].
  vm_compute. reflexivity.
Qed.

Lemma stale_result_world_reachable : reachable stale_result_world.
Proof.
  apply (steps_reachable
           [FileChosen [sample_file]; SubmitClicked;
            PostSettled 0 (Fulfilled {| status := 200;
                                        data := sample_response |});
            FileChosen []; SubmitClicked]
           initial_world); [constructor |].
  vm_compute. reflexivity.
Qed.

(** Every failing outcome of the call, no answer or a status outside
    200..299, is a rejection of the awaited promise. *)
Lemma failure_is_rejection (o : http_outcome) :
  (forall resp, o = Answer resp -> validateStatus (status resp) = false) ->
  exists err, axios_settles o = Rejected err.
Proof.
  intros Hfail. destruct o as [| resp]; cbn; [by eauto |].
  rewrite (Hfail resp eq_refl). by eauto.
Qed.

Lemma run_through_without_file (sel : selection) (s : settled) (st : state) :
  has_file sel = false ->
  run_through (handleUpload sel) s st =
  ({| selectedFile := selectedFile st;
      analysisResult := analysisResult st;
      loading := loading st;
      error := Some no_file_message |}, []).
Proof. by destruct sel. Qed.

(** C1: with no file selected, [handleUpload] issues no request, awaits
    nothing, and sets [error] to "Please select a resume file.". *)
Theorem submit_without_file (w : world) :
  has_file (selectedFile (ui w)) = false ->
  let w' := run (handleUpload (selectedFile (ui w))) w in
  posted w' = posted w /\
  pending w' = pending w /\
  error (ui w') = Some "Please select a resume file." /\
  (forall s,
     run_through (handleUpload (selectedFile (ui w))) s (ui w) = (ui w', [])).
Proof.
  intros Hsel. cbv zeta. rewrite run_handleUpload_without_file by done.
  repeat split. intros s. by rewrite run_through_without_file.
Qed.

(** C2: with a file selected, [handleUpload] issues exactly one request: a
    POST to http://localhost:5000/analyze/ whose form has the single part
    [file] holding the selected file, bytes included; the continuation that
    awaits it issues nothing further however the request settles. *)
Theorem submit_with_file (w : world) (f : File) :
  selectedFile (ui w) = SelFile f ->
  let w' := run (handleUpload (selectedFile (ui w))) w in
  let req := {| method := "POST";
                url := "http://localhost:5000/analyze/";
                body := [("file", f)];
                headers := [("Content-Type", "multipart/form-data")] |} in
  posted w' = (posted w ++ [req])%list /\
  pending w' = (pending w ++ [upload_continuation])%list /\
  map (fun part => file_bytes (snd part)) (body req) = [file_bytes f] /\
  (forall s w1,
     posted (run (upload_continuation s) w1) = posted w1 /\
     pending (run (upload_continuation s) w1) = pending w1) /\
  (forall s,
     snd (run_through (handleUpload (selectedFile (ui w))) s (ui w)) = [req]).
Proof.
  intros ->. cbv zeta. rewrite run_handleUpload_with_file.
  split; [done |]. split; [done |]. split; [done |]. split.
  - intros s w1.
    by destruct (run_upload_continuation s w1) as (_ & _ & ? & ? & _).
  - by intros [resp | [[resp |]]].
Qed.

(** C3: when the awaited request fails, the resulting state has [loading]
    false, [error] equal to "Failed to upload and analyze the resume. Please
    try again." and a null result; no further request is issued and nothing
    is awaited; and the state, hence the rendered tree, is the same whatever
    the failure was.  A failure of the call, no answer or a status outside
    200..299, always arrives as such a rejection. *)
Theorem failed_request_outcome (w : world) :
  reachable w ->
  (forall i err w',
     step (PostSettled i (Rejected err)) w = Some w' ->
     loading (ui w') = false /\
     error (ui w') =
       Some "Failed to upload and analyze the resume. Please try again." /\
     analysisResult (ui w') = VNull /\
     posted w' = posted w /\
     pending w' = [] /\
     (forall err2 w2,
        step (PostSettled i (Rejected err2)) w = Some w2 ->
        ui w2 = ui w' /\ App (ui w2) = App (ui w'))) /\
  (forall o,
     (forall resp, o = Answer resp -> validateStatus (status resp) = false) ->
     exists err, axios_settles o = Rejected err).
Proof.
  intros Hreach. split; [| exact failure_is_rejection].
  intros i err w' Hstep.
  pose proof (reachable_request_invariant _ Hreach) as Hinv.
  unfold step in Hstep.
  destruct (pending w !! i) as [k |] eqn:Hk; [| done].
  destruct Hinv as [(_ & Hp & Hres & _) | [_ Hp]]; rewrite Hp in Hk; [| done].
  destruct i; [| done]. injection Hk as <-.
  assert (Hui : forall e w1,
             step (PostSettled 0 (Rejected e)) w = Some w1 ->
             ui w1 = {| selectedFile := selectedFile (ui w);
                        analysisResult := VNull;
                        loading := false;
                        error := Some upload_failed_message |}).
  { intros e w1 H1. unfold step in H1. rewrite Hp in H1.
    change (Some (rerender (run (upload_continuation (Rejected e))
                              (take_pending 0 w))) = Some w1) in H1.
    apply (inj Some) in H1. subst w1.
    change (ui (rerender ?x)) with (ui x).
    rewrite run_upload_continuation_rejected. cbn. by rewrite Hres. }
  assert (Hw' : step (PostSettled 0 (Rejected err)) w = Some w').
  { unfold step. by rewrite Hp. }
  pose proof (Hui _ _ Hw') as Hui'.
  rewrite Hui'. cbn.
  change (Some (rerender (run (upload_continuation (Rejected err))
                            (take_pending 0 w))) = Some w') in Hstep.
  apply (inj Some) in Hstep. subst w'.
  destruct (run_upload_continuation (Rejected err) (take_pending 0 w))
    as (_ & _ & Hpend & Hpost & _).
  repeat split.
  - exact Hpost.
  - change (pending (rerender ?x)) with (pending x).
    rewrite Hpend. cbn. by rewrite Hp.
  - eauto.
  - by erewrite Hui by eauto.
Qed.

(** C5, as the code has it: with a file selected, a submit attempt starts
    by clearing the prior error and the prior result, and sets [loading];
    with no file selected it stops at the guard, so it only replaces the
    error by "Please select a resume file." and leaves the prior result and
    [loading] as they were. *)
Theorem submit_resets_when_file_selected (w : world) :
  let w' := run (handleUpload (selectedFile (ui w))) w in
  (has_file (selectedFile (ui w)) = true ->
     error (ui w') = None /\
     analysisResult (ui w') = VNull /\
     loading (ui w') = true) /\
  (has_file (selectedFile (ui w)) = false ->
     error (ui w') = Some "Please select a resume file." /\
     analysisResult (ui w') = analysisResult (ui w) /\
     loading (ui w') = loading (ui w)).
Proof.
  cbv zeta. split; intros Hsel.
  - destruct (selectedFile (ui w)) as [| | f]; [done | done |].
    by rewrite run_handleUpload_with_file.
  - by rewrite run_handleUpload_without_file.
Qed.

Lemma choose_files_frame (choices : list (list File)) :
  forall w,
    loading (ui (choose_files choices w)) = loading (ui w) /\
    error (ui (choose_files choices w)) = error (ui w) /\
    analysisResult (ui (choose_files choices w)) = analysisResult (ui w).
Proof.
  induction choices as [| files rest IH]; intros w; [done |].
  change (choose_files (files :: rest) w)
    with (choose_files rest (run (handleFileChange files) w)).
  destruct (IH (run (handleFileChange files) w)) as (-> & -> & ->).
  by rewrite run_handleFileChange.
Qed.

(** C10: [handleFileChange] changes only [selectedFile]: [loading], [error]
    and the result stay as they were, nothing is issued, awaited or logged;
    so the error paragraph of the rendered tree stays the same through any
    number of file selections. *)
Theorem select_file_changes_only_selection (w : world) (files : list File) :
  let w' := run (handleFileChange files) w in
  selectedFile (ui w') = first_file files /\
  loading (ui w') = loading (ui w) /\
  error (ui w') = error (ui w) /\
  analysisResult (ui w') = analysisResult (ui w) /\
  pending w' = pending w /\
  posted w' = posted w /\
  console w' = console w /\
  (forall choices tree tree',
     App (ui w) = Normal tree ->
     App (ui (choose_files choices w)) = Normal tree' ->
     error_slot tree' = error_slot tree /\
     error_slot tree = Some (error_paragraph (error (ui w)))).
Proof.
  cbv zeta. rewrite run_handleFileChange.
  do 7 (split; [reflexivity |]).
  intros choices tree tree' Htree Htree'.
  rewrite (App_error_slot _ _ Htree), (App_error_slot _ _ Htree').
  by destruct (choose_files_frame choices w) as (_ & -> & _).
Qed.

(** ** Turns of the loop *)

Lemma step_settled_inversion (w w' : world) (i : nat) (s : settled) :
  reachable w ->
  step (PostSettled i s) w = Some w' ->
  i = 0%nat /\
  w' = rerender (run (upload_continuation s) (take_pending 0 w)) /\
  pending w = [upload_continuation] /\
  loading (ui w) = true /\
  analysisResult (ui w) = VNull /\
  error (ui w) = None.
Proof.
  intros Hreach Hstep.
  pose proof (reachable_request_invariant _ Hreach) as Hinv.
  unfold step in Hstep.
  destruct (pending w !! i) as [k |] eqn:Hk; [| done].
  destruct Hinv as [(Hl & Hp & Hres & Herr) | [_ Hp]]; rewrite Hp in Hk;
    [| done].
  destruct i; [| done]. injection Hk as <-.
  change (Some (rerender (run (upload_continuation s) (take_pending 0 w)))
          = Some w') in Hstep.
  apply (inj Some) in Hstep. by subst w'.
Qed.

Lemma step_clicked_inversion (w w' : world) :
  reachable w ->
  step SubmitClicked w = Some w' ->
  w' = rerender (run (handleUpload (selectedFile (ui w))) w) /\
  mounted w = true /\
  loading (ui w) = false /\
  pending w = [].
Proof.
  intros Hreach Hstep.
  pose proof (reachable_request_invariant _ Hreach) as Hinv.
  unfold step in Hstep.
  destruct (clickable w) eqn:Hclick; [| done].
  apply (inj Some) in Hstep. subst w'.
  pose proof (clickable_not_loading _ Hclick) as Hload.
  split; [done |]. split.
  - unfold clickable in Hclick. by destruct (mounted w).
  - split; [done |]. destruct Hinv as [[Hl _] | [_ Hp]]; [congruence | done].
Qed.

Lemma step_chosen_inversion (w w' : world) (files : list File) :
  step (FileChosen files) w = Some w' ->
  w' = rerender (run (handleFileChange files) w) /\ mounted w = true.
Proof.
  unfold step. destruct (mounted w); [| done].
  intros Hstep. apply (inj Some) in Hstep. by subst w'.
Qed.

(** X1: when the awaited request succeeds, the body of the response
    replaces the result, whatever it is, [loading] is false and [error]
    stays cleared; the selection is kept, no request is issued, nothing is
    awaited and nothing is logged. *)
Theorem successful_request_outcome (w : world) :
  reachable w ->
  forall i resp w',
    step (PostSettled i (Fulfilled resp)) w = Some w' ->
    analysisResult (ui w') = data resp /\
    loading (ui w') = false /\
    error (ui w') = None /\
    selectedFile (ui w') = selectedFile (ui w) /\
    posted w' = posted w /\
    pending w' = [] /\
    console w' = console w.
Proof.
  intros Hreach i resp w' Hstep.
  destruct (step_settled_inversion _ _ _ _ Hreach Hstep)
    as (-> & -> & Hp & _ & _ & Herr).
  change (ui (rerender ?x)) with (ui x).
  rewrite run_upload_continuation_fulfilled. cbn.
  repeat split; [exact Herr | by rewrite Hp].
Qed.

(** X2: the console is written to by a failed request only: a turn of the
    loop appends the entry "Error uploading resume:" with the error,
    followed by "Backend error:" with the body of the response when the
    error carries one, after a rejection, and appends nothing after a file
    selection, a click or a success. *)
Theorem console_written_on_failure_only (w : world) :
  reachable w ->
  forall e w', step e w = Some w' ->
    console w' = (console w ++ failure_log e)%list.
Proof.
  intros Hreach e w' Hstep. destruct e as [files | | i s].
  - destruct (step_chosen_inversion _ _ _ Hstep) as [-> _].
    cbn. by rewrite app_nil_r.
  - destruct (step_clicked_inversion _ _ Hreach Hstep) as (-> & _).
    change (console (rerender ?x)) with (console x).
    destruct (selectedFile (ui w)) as [| | f]; cbn; by rewrite app_nil_r.
  - destruct (step_settled_inversion _ _ _ _ Hreach Hstep) as (-> & -> & _).
    change (console (rerender ?x)) with (console x).
    destruct s as [resp | [[resp |]]]; cbn; [by rewrite app_nil_r | |];
      by rewrite <- ?app_assoc.
Qed.

Lemma reachable_known_error (w : world) :
  reachable w -> known_error (error (ui w)).
Proof.
  induction 1 as [| w e w' Hreach IH Hstep]; [by left |].
  destruct e as [files | | i s].
  - by destruct (step_chosen_inversion _ _ _ Hstep) as [-> _].
  - destruct (step_clicked_inversion _ _ Hreach Hstep) as (-> & _).
    change (ui (rerender ?x)) with (ui x).
    destruct (selectedFile (ui w)) as [| | f]; cbn;
      [right; by left | right; by left | by left].
  - destruct (step_settled_inversion _ _ _ _ Hreach Hstep)
      as (-> & -> & _ & _ & _ & Herr).
    change (ui (rerender ?x)) with (ui x).
    destruct s as [resp | err].
    + rewrite run_upload_continuation_fulfilled. cbn. rewrite Herr. by left.
    + rewrite run_upload_continuation_rejected. cbn. right. by right.
Qed.

(** X3: in every reachable world [error] is null or one of the two fixed
    messages, so the error paragraph is an element holding that message
    exactly when [error] is set, and the bare [null] otherwise. *)
Theorem error_is_a_fixed_message (w : world) :
  reachable w ->
  known_error (error (ui w)) /\
  error_paragraph (error (ui w)) =
  match error (ui w) with
  | Some message => Elem "p" (className "error-message") [Text message]
  | None => Val VNull
  end.
Proof.
  intros Hreach. pose proof (reachable_known_error _ Hreach) as Hknown.
  split; [exact Hknown |].
  by destruct Hknown as [-> | [-> | ->]].
Qed.

Lemma analyze_request_upload (f : File) : analyze_request (upload_request f).
Proof. repeat split. by exists f. Qed.

(** X4: every request issued up to a reachable world is a POST to
    http://localhost:5000/analyze/ with the multipart content type and a
    form of exactly one part, named [file]; and a turn of the loop issues at
    most one request, none unless it is a click. *)
Theorem every_request_is_an_analyze_post (w : world) :
  reachable w ->
  Forall analyze_request (posted w) /\
  (forall e w', step e w = Some w' ->
     posted w' = posted w \/
     e = SubmitClicked /\
     exists f, selectedFile (ui w) = SelFile f /\
               posted w' = (posted w ++ [upload_request f])%list).
Proof.
  intros Hreach.
  assert (Hstep : forall w0, reachable w0 -> forall e w',
             step e w0 = Some w' ->
             posted w' = posted w0 \/
             e = SubmitClicked /\
             exists f, selectedFile (ui w0) = SelFile f /\
                       posted w' = (posted w0 ++ [upload_request f])%list).
  { intros w0 Hreach0 e w' Hs. destruct e as [files | | i s].
    - destruct (step_chosen_inversion _ _ _ Hs) as [-> _]. by left.
    - destruct (step_clicked_inversion _ _ Hreach0 Hs) as (-> & _).
      change (posted (rerender ?x)) with (posted x).
      destruct (selectedFile (ui w0)) as [| | f] eqn:Hsel;
        [by left | by left |].
      right. split; [done |]. by exists f.
    - destruct (step_settled_inversion _ _ _ _ Hreach0 Hs) as (-> & -> & _).
      change (posted (rerender ?x)) with (posted x).
      left.
      by destruct (run_upload_continuation s (take_pending 0 w0))
        as (_ & _ & _ & -> & _). }
  split; [| exact (Hstep w Hreach)].
  induction Hreach as [| w e w' Hreach IH Hs]; [by constructor |].
  destruct (Hstep _ Hreach _ _ Hs) as [-> | (_ & f & _ & ->)]; [exact IH |].
  apply Forall_app. split; [exact IH |].
  constructor; [apply analyze_request_upload | constructor].
Qed.

(** ** More on the blocks *)

Lemma suggestions_block_falsy (r : value) :
  nullish r = false ->
  truthy (read r "improvement_suggestions") = false ->
  suggestions_block r = Normal (Val (read r "improvement_suggestions")).
Proof.
  intros Hr Hs. unfold suggestions_block.
  by rewrite (get_prop_read _ _ Hr), bind_normal, Hs.
Qed.

Lemma key_sections_block_falsy (r : value) :
  nullish r = false ->
  truthy (read r "analysis") = false ->
  key_sections_block r = Normal (Val (read r "analysis")).
Proof.
  intros Hr Ha. unfold key_sections_block.
  by rewrite (get_prop_read _ _ Hr), bind_normal, Ha.
Qed.

Lemma key_sections_block_present (r : value) :
  nullish r = false ->
  truthy (read r "analysis") = true ->
  nullish (read (read r "analysis") "key_sections") = false ->
  key_sections_block r =
  Normal (Elem "div" (className "key-sections-analysis")
    [Elem "h3" [] [Text "Key Sections Analysis"];
     Elem "p" []
       [Text "Education Present: ";
        Text (yes_no (read (read (read r "analysis") "key_sections")
                        "education_present"))];
     Elem "p" []
       [Text "Experience Present: ";
        Text (yes_no (read (read (read r "analysis") "key_sections")
                        "experience_present"))];
     Elem "p" []
       [Text "Skills Present: ";
        Text (yes_no (read (read (read r "analysis") "key_sections")
                        "skills_present"))]]).
Proof.
  intros Hr Ha Hks. pose proof (truthy_not_nullish _ Ha) as Han.
  unfold key_sections_block.
  rewrite (get_prop_read _ _ Hr), bind_normal, Ha.
  by rewrite !(flag_text_read _ _ Hr Han), Hks, !bind_normal.
Qed.

Lemma read_not_object (r : value) (k : string) :
  (forall fields, r ≠ VObj fields) -> k ≠ "length" -> read r k = VUndefined.
Proof.
  intros Hobj Hk. unfold read.
  destruct r as [| | b | q | s | items | fields]; cbn; try done.
  - by rewrite decide_False.
  - by rewrite decide_False.
  - by destruct (Hobj fields).
Qed.

(** X5: a truthy result whose three fields are all falsy renders the
    results section with its heading and no block, without throwing; this is
    so for the empty object, and for every truthy body that is not an object
    (a text body, a number, [true], an array), whose three fields all read
    [undefined]. *)
Theorem results_section_without_blocks (r : value) :
  truthy r = true ->
  (truthy (read r "extracted_text") = false ->
   truthy (read r "analysis") = false ->
   truthy (read r "improvement_suggestions") = false ->
   results_section r =
   Normal (Elem "div" (className "results-section")
             [Elem "h2" [] [Text "Analysis Results"];
              Val (read r "extracted_text");
              Val (read r "analysis");
              Val (read r "improvement_suggestions")])) /\
  ((forall fields, r ≠ VObj fields) ->
   results_section r =
   Normal (Elem "div" (className "results-section")
             [Elem "h2" [] [Text "Analysis Results"];
              Val VUndefined; Val VUndefined; Val VUndefined])).
Proof.
  intros Hr. pose proof (truthy_not_nullish _ Hr) as Hrn.
  assert (Hfalsy : truthy (read r "extracted_text") = false ->
                   truthy (read r "analysis") = false ->
                   truthy (read r "improvement_suggestions") = false ->
                   results_section r =
                   Normal (Elem "div" (className "results-section")
                             [Elem "h2" [] [Text "Analysis Results"];
                              Val (read r "extracted_text");
                              Val (read r "analysis");
                              Val (read r "improvement_suggestions")])).
  { intros Ht Ha Hs. unfold results_section. rewrite Hr.
    rewrite (extracted_text_block_read _ Hrn), Ht, bind_normal.
    rewrite (key_sections_block_falsy _ Hrn Ha), bind_normal.
    by rewrite (suggestions_block_falsy _ Hrn Hs), bind_normal. }
  split; [exact Hfalsy |].
  intros Hobj.
  pose proof (read_not_object r "extracted_text" Hobj ltac:(done)) as Ht.
  pose proof (read_not_object r "analysis" Hobj ltac:(done)) as Ha.
  pose proof (read_not_object r "improvement_suggestions" Hobj ltac:(done))
    as Hs.
  rewrite Hfalsy; rewrite ?Ht, ?Ha, ?Hs; done.
Qed.

(** X6: the key-sections block is rendered exactly when [analysis] is
    truthy: for a falsy [analysis] the expression yields the bare value and
    reads nothing below it; for a truthy one with [key_sections] present it
    yields the three lines "Education Present: ", "Experience Present: " and
    "Skills Present: ", each ended by "Yes" when its flag is truthy and by
    "No" otherwise, a missing flag included. *)
Theorem key_sections_block_lines (r : value) :
  truthy r = true ->
  (truthy (read r "analysis") = false ->
   key_sections_block r = Normal (Val (read r "analysis"))) /\
  (truthy (read r "analysis") = true ->
   nullish (read (read r "analysis") "key_sections") = false ->
   exists education experience skills,
     key_sections_block r =
     Normal (Elem "div" (className "key-sections-analysis")
               [Elem "h3" [] [Text "Key Sections Analysis"];
                Elem "p" [] education;
                Elem "p" [] experience;
                Elem "p" [] skills]) /\
     line_text education =
       Some ("Education Present: " +:+
             yes_no (read (read (read r "analysis") "key_sections")
                       "education_present")) /\
     line_text experience =
       Some ("Experience Present: " +:+
             yes_no (read (read (read r "analysis") "key_sections")
                       "experience_present")) /\
     line_text skills =
       Some ("Skills Present: " +:+
             yes_no (read (read (read r "analysis") "key_sections")
                       "skills_present")) /\
     (forall flag,
        read (read (read r "analysis") "key_sections") flag = VUndefined ->
        yes_no (read (read (read r "analysis") "key_sections") flag) = "No")).
Proof.
  intros Hr. pose proof (truthy_not_nullish _ Hr) as Hrn.
  split; [exact (key_sections_block_falsy _ Hrn) |].
  intros Ha Hks. do 3 eexists.
  split; [exact (key_sections_block_present _ Hrn Ha Hks) |].
  unfold yes_no.
  destruct (truthy (read _ "education_present")),
           (truthy (read _ "experience_present")),
           (truthy (read _ "skills_present"));
    (repeat split; by intros flag ->).
Qed.

Lemma App_without_result (st : state) :
  truthy (analysisResult st) = false ->
  App st =
  Normal (Elem "div" (className "app-container")
            [Elem "h1" [] [Text "Resume Analyzer"];
             upload_section st;
             Val (analysisResult st)]).
Proof. intros Hr. unfold App, results_section. by rewrite Hr. Qed.

(** X7: while a request is awaited the page shows neither an error nor a
    results section: in every reachable world with [loading] set the
    component renders, without throwing, the title, the file input, the
    disabled button labelled "Analyzing..." and nothing else. *)
Theorem view_while_loading (w : world) :
  reachable w ->
  loading (ui w) = true ->
  App (ui w) =
  Normal (Elem "div" (className "app-container")
    [Elem "h1" [] [Text "Resume Analyzer"];
     Elem "div" (className "upload-section")
       [Elem "input"
          [("type", AStr "file"); ("accept", AStr ".pdf");
           ("onChange", AHandler HandleFileChange)] [];
        Elem "button"
          [("onClick", AHandler HandleUpload); ("disabled", ABool true)]
          [Text "Analyzing..."];
        Val VNull];
     Val VNull]).
Proof.
  intros Hreach Hload.
  destruct (reachable_request_invariant _ Hreach)
    as [(_ & _ & Hres & Herr) | [Hl _]]; [| congruence].
  rewrite App_without_result by (by rewrite Hres).
  unfold upload_section, submit_button. by rewrite Hres, Herr, Hload.
Qed.

Lemma choose_files_last (choices : list (list File)) (files : list File)
    (w : world) :
  choose_files (choices ++ [files]) w =
  run (handleFileChange files) (choose_files choices w).
Proof. unfold choose_files. by rewrite foldl_app. Qed.

Lemma choose_files_requests (choices : list (list File)) :
  forall w,
    posted (choose_files choices w) = posted w /\
    pending (choose_files choices w) = pending w.
Proof.
  induction choices as [| files rest IH]; intros w; [done |].
  change (choose_files (files :: rest) w)
    with (choose_files rest (run (handleFileChange files) w)).
  by destruct (IH (run (handleFileChange files) w)) as [-> ->].
Qed.

(** X8: after any number of file selections, a submit acts on the last one
    alone, and on its first file alone: when the last selection holds files,
    exactly the request for its first file is issued; when it is empty, an
    earlier selection is forgotten, nothing is issued and the error is
    "Please select a resume file.". *)
Theorem submit_uses_first_file_of_last_selection
    (w : world) (choices : list (list File)) (files : list File) :
  let w1 := choose_files (choices ++ [files]) w in
  let w2 := run (handleUpload (selectedFile (ui w1))) w1 in
  match files with
  | f :: _ =>
      posted w2 = (posted w ++ [upload_request f])%list /\
      pending w2 = (pending w ++ [upload_continuation])%list /\
      loading (ui w2) = true
  | [] =>
      posted w2 = posted w /\
      pending w2 = pending w /\
      error (ui w2) = Some "Please select a resume file."
  end.
Proof.
  cbv zeta. rewrite choose_files_last.
  destruct (choose_files_requests choices w) as [Hposted Hpending].
  destruct files as [| f rest]; cbn; by rewrite Hposted, Hpending.
Qed.

(** X9: a failure leaves the page ready for a manual retry: when a click
    with a file selected is followed by the rejection of its request, the
    button can be clicked again at once, and that click issues the request
    for the same file a second time and clears the failure message. *)
Theorem retry_after_failure (w w1 w2 : world) (f : File) (err : axios_error) :
  reachable w ->
  selectedFile (ui w) = SelFile f ->
  step SubmitClicked w = Some w1 ->
  step (PostSettled 0 (Rejected err)) w1 = Some w2 ->
  exists w3,
    step SubmitClicked w2 = Some w3 /\
    posted w3 = (posted w ++ [upload_request f; upload_request f])%list /\
    pending w3 = [upload_continuation] /\
    loading (ui w3) = true /\
    error (ui w3) = None.
Proof.
  intros Hreach Hsel Hclick Hsettle.
  pose proof (reachable_step _ _ _ Hreach Hclick) as Hreach1.
  destruct (step_clicked_inversion _ _ Hreach Hclick)
    as (Hw1 & Hmounted & _ & Hp).
  rewrite Hsel, run_handleUpload_with_file in Hw1.
  destruct (step_settled_inversion _ _ _ _ Hreach1 Hsettle)
    as (_ & Hw2 & _).
  assert (Hui2 : ui w2 = {| selectedFile := SelFile f;
                            analysisResult := VNull;
                            loading := false;
                            error := Some upload_failed_message |}).
  { rewrite Hw2. change (ui (rerender ?x)) with (ui x).
    rewrite run_upload_continuation_rejected. rewrite Hw1. cbn.
    by rewrite Hsel. }
  assert (Hposted2 : posted w2 = (posted w ++ [upload_request f])%list).
  { rewrite Hw2. change (posted (rerender ?x)) with (posted x).
    destruct (run_upload_continuation (Rejected err) (take_pending 0 w1))
      as (_ & _ & _ & -> & _).
    by rewrite Hw1. }
  assert (Hpending2 : pending w2 = []).
  { rewrite Hw2. change (pending (rerender ?x)) with (pending x).
    destruct (run_upload_continuation (Rejected err) (take_pending 0 w1))
      as (_ & _ & -> & _).
    rewrite Hw1. cbn. by rewrite Hp. }
  assert (Hmounted2 : mounted w2 = true).
  { rewrite Hw2. unfold rerender at 1. cbn [mounted].
    destruct (run_upload_continuation (Rejected err) (take_pending 0 w1))
      as (_ & _ & _ & _ & ->).
    assert (Hnormal : forall st, analysisResult st = VNull ->
                                 is_normal (App st) = true).
    { intros st Hst. rewrite App_without_result; by rewrite ?Hst. }
    rewrite Hnormal.
    - change (mounted (take_pending 0 w1)) with (mounted w1).
      rewrite Hw1. unfold rerender. cbn [mounted ui].
      rewrite Hmounted, Hnormal; done.
    - rewrite run_upload_continuation_rejected. by rewrite Hw1. }
  assert (Hclickable : clickable w2 = true).
  { unfold clickable. rewrite Hmounted2, Hui2.
    rewrite App_without_result by done. done. }
  eexists. split.
  { unfold step. rewrite Hclickable. reflexivity. }
  change (posted (rerender ?x)) with (posted x).
  change (pending (rerender ?x)) with (pending x).
  change (ui (rerender ?x)) with (ui x).
  rewrite Hui2. cbn [selectedFile]. rewrite run_handleUpload_with_file. cbn.
  rewrite Hposted2, Hpending2, <- app_assoc. done.
Qed.

Lemma map_items_null (items : list value) :
  forall k : nat,
    Exists (fun item => nullish item = true) items ->
    map_items suggestion_item k items = Throw TypeError.
Proof.
  induction items as [| item rest IH]; intros k Hex; [by inversion Hex |].
  rewrite map_items_cons.
  destruct (nullish item) eqn:Hitem.
  - by rewrite (suggestion_item_nullish _ _ Hitem).
  - rewrite (suggestion_item_read _ _ Hitem), bind_normal.
    inversion Hex as [? ? Hhead | ? ? Htail]; subst; [congruence |].
    by rewrite (IH _ Htail).
Qed.

Lemma App_throws_with_suggestions (st : state) :
  truthy (analysisResult st) = true ->
  is_normal (suggestions_block (analysisResult st)) = false ->
  is_normal (App st) = false.
Proof.
  intros Hr Hs. unfold App, results_section. rewrite Hr.
  destruct (extracted_text_block _); [| done].
  destruct (key_sections_block _); [| done].
  by destruct (suggestions_block _).
Qed.

Lemma falsy_displayable (v : value) :
  truthy v = false -> displayable_value v = true.
Proof. by destruct v. Qed.

Lemma error_paragraph_displayable (e : option string) :
  displayable (error_paragraph e) = true.
Proof.
  unfold error_paragraph. destruct e as [message |]; [| done].
  by destruct (truthy (error_value (Some message))).
Qed.

Lemma upload_section_displayable (st : state) :
  displayable (upload_section st) = true.
Proof.
  unfold upload_section. cbn [displayable forallb].
  by rewrite error_paragraph_displayable.
Qed.

Lemma list_items_displayable (items : list value) :
  Forall presentable_item items ->
  forall g : nat -> nat,
    forallb displayable (imap (fun i => list_item (g i)) items) = true.
Proof.
  induction 1 as [| item rest [_ Hitem] _ IH]; intros g; [done |].
  rewrite imap_cons. cbn [forallb]. apply andb_true_intro. split.
  - unfold list_item. cbn [displayable forallb]. by rewrite Hitem.
  - exact (IH (g ∘ S)).
Qed.

Lemma presentable_items_well_formed (items : list value) :
  Forall presentable_item items -> Forall well_formed_item items.
Proof. induction 1 as [| item rest [Hitem _] _ IH]; by constructor. Qed.

(** The three blocks of a presentable result evaluate to children the
    renderer accepts. *)
Lemma blocks_of_presentable_result (r : value) :
  nullish r = false ->
  presentable_result r ->
  exists text_block key_block list_block,
    extracted_text_block r = Normal text_block /\
    key_sections_block r = Normal key_block /\
    suggestions_block r = Normal list_block /\
    displayable text_block = true /\
    displayable key_block = true /\
    displayable list_block = true.
Proof.
  intros Hrn (Htext & Hks & Hlist).
  assert (Ht : exists n, extracted_text_block r = Normal n /\
                         displayable n = true).
  { rewrite (extracted_text_block_read _ Hrn).
    destruct (truthy (read r "extracted_text")) eqn:Htruthy.
    - eexists. split; [reflexivity |].
      cbn [displayable forallb]. by rewrite (Htext eq_refl).
    - eexists. split; [reflexivity |]. by apply falsy_displayable. }
  assert (Hk : exists n, key_sections_block r = Normal n /\
                         displayable n = true).
  { destruct (truthy (read r "analysis")) eqn:Ha.
    - rewrite (key_sections_block_present _ Hrn Ha (Hks eq_refl)).
      eexists. split; [reflexivity | done].
    - rewrite (key_sections_block_falsy _ Hrn Ha).
      eexists. split; [reflexivity |]. by apply falsy_displayable. }
  assert (Hs : exists n, suggestions_block r = Normal n /\
                         displayable n = true).
  { destruct Hlist as [Hfalsy | (items & Harr & Hitems)].
    - rewrite (suggestions_block_falsy _ Hrn Hfalsy).
      eexists. split; [reflexivity |]. by apply falsy_displayable.
    - rewrite (suggestions_block_array _ _ Hrn Harr).
      destruct items as [| item rest]; [by eexists |].
      rewrite (map_items_well_formed _ 0
                 (presentable_items_well_formed _ Hitems)), bind_normal.
      eexists. split; [reflexivity |].
      cbn [displayable forallb].
      by rewrite (list_items_displayable _ Hitems (fun i => (0 + i)%nat)). }
  destruct Ht as (t & Ht & Htd), Hk as (k & Hk & Hkd), Hs as (s & Hs & Hsd).
  by exists t, k, s.
Qed.

(** The component returns, for a state whose result is falsy or
    presentable, a tree that the renderer accepts. *)
Lemma App_of_presentable_result (st : state) :
  (truthy (analysisResult st) = true ->
   presentable_result (analysisResult st)) ->
  exists tree, App st = Normal tree /\ displayable tree = true.
Proof.
  intros Hpresentable.
  destruct (truthy (analysisResult st)) eqn:Hr.
  - pose proof (truthy_not_nullish _ Hr) as Hrn.
    destruct (blocks_of_presentable_result _ Hrn (Hpresentable eq_refl))
      as (t & k & s & Ht & Hk & Hs & Htd & Hkd & Hsd).
    unfold App, results_section. rewrite Hr, Ht, Hk, Hs, !bind_normal.
    eexists. split; [reflexivity |].
    cbn [displayable forallb].
    by rewrite upload_section_displayable, Htd, Hkd, Hsd.
  - rewrite (App_without_result _ Hr).
    eexists. split; [reflexivity |].
    cbn [displayable forallb].
    by rewrite upload_section_displayable, (falsy_displayable _ Hr).
Qed.

(** X10: the page shows every presentable result: for a state whose result
    is falsy, or truthy with a displayable [extracted_text], [key_sections]
    present whenever [analysis] is truthy, and [improvement_suggestions]
    falsy or an array of non-null elements with displayable suggestions,
    the component returns a tree without throwing, and the tree holds no
    child that the renderer refuses. *)
Theorem App_renders_presentable_result (st : state) :
  (truthy (analysisResult st) = true ->
   presentable_result (analysisResult st)) ->
  exists tree,
    App st = Normal tree /\
    displayable tree = true /\
    button_disabled tree = Some (loading st) /\
    error_slot tree = Some (error_paragraph (error st)).
Proof.
  intros Hpresentable.
  destruct (App_of_presentable_result st Hpresentable) as (tree & Htree & Hd).
  exists tree. split; [exact Htree |]. split; [exact Hd |].
  split; [exact (App_button_disabled _ _ Htree) |].
  exact (App_error_slot _ _ Htree).
Qed.

(** X11: suggestions the callback cannot read take the whole render down:
    when [improvement_suggestions] is an array holding a [null] element, or
    a non-empty string, the suggestions block throws a TypeError, and so
    does the component for every state holding that result. *)
Theorem suggestions_block_throws (r : value) :
  truthy r = true ->
  (exists items,
     read r "improvement_suggestions" = VArr items /\
     Exists (fun item => nullish item = true) items) \/
  (exists s, read r "improvement_suggestions" = VStr s /\ s ≠ "") ->
  suggestions_block r = Throw TypeError /\
  (forall st, analysisResult st = r -> is_normal (App st) = false).
Proof.
  intros Hr Hbad. pose proof (truthy_not_nullish _ Hr) as Hrn.
  assert (Hthrow : suggestions_block r = Throw TypeError).
  { destruct Hbad as [(items & Harr & Hex) | (s & Hstr & Hs)].
    - rewrite (suggestions_block_array _ _ Hrn Harr).
      destruct items as [| item rest]; [by inversion Hex |].
      by rewrite (map_items_null _ 0 Hex).
    - unfold suggestions_block.
      rewrite (get_prop_read _ _ Hrn), Hstr, bind_normal.
      rewrite (truthy_nonempty_string _ Hs).
      destruct s as [| c s']; [done |].
      cbn. case_decide; [reflexivity | done]. }
  split; [exact Hthrow |].
  intros st <-. apply App_throws_with_suggestions; [done |].
  by rewrite Hthrow.
Qed.

(** X12: the selection is changed by the file input alone: a click and the
    settlement of a request, success or failure, leave [selectedFile] as it
    was, and a file selection sets it to the first file chosen. *)
Theorem selection_changes_by_file_input_only (w : world) :
  reachable w ->
  forall e w', step e w = Some w' ->
    selectedFile (ui w') =
    match e with
    | FileChosen files => first_file files
    | SubmitClicked | PostSettled _ _ => selectedFile (ui w)
    end.
Proof.
  intros Hreach e w' Hstep. destruct e as [files | | i s].
  - by destruct (step_chosen_inversion _ _ _ Hstep) as [-> _].
  - destruct (step_clicked_inversion _ _ Hreach Hstep) as (-> & _).
    change (ui (rerender ?x)) with (ui x).
    destruct (has_file (selectedFile (ui w))) eqn:Hfile.
    + destruct (selectedFile (ui w)) as [| | f] eqn:Hsel; [done | done |].
      rewrite run_handleUpload_with_file. exact Hsel.
    + by rewrite run_handleUpload_without_file.
  - destruct (step_settled_inversion _ _ _ _ Hreach Hstep) as (-> & -> & _).
    change (ui (rerender ?x)) with (ui x).
    by destruct (run_upload_continuation s (take_pending 0 w))
      as (_ & -> & _).
Qed.

Lemma file_chosen_world_reachable : reachable file_chosen_world.
Proof.
  apply (steps_reachable [FileChosen [sample_file]] initial_world);
    [constructor |].
  vm_compute. reflexivity.
Qed.

(** ** The submit control after a settlement *)

Lemma reachable_mounted_while_pending (w : world) :
  reachable w -> mounted w = true \/ pending w = [].
Proof.
  induction 1 as [| w e w' Hreach IH Hstep]; [by left |].
  pose proof (reachable_request_invariant _
                (reachable_step _ _ _ Hreach Hstep)) as Hinv'.
  destruct Hinv' as [(_ & _ & Hres & _) | [_ Hp]]; [| by right].
  left.
  assert (Hnormal : is_normal (App (ui w')) = true).
  { rewrite App_without_result; by rewrite ?Hres. }
  destruct e as [files | | i s].
  - destruct (step_chosen_inversion _ _ _ Hstep) as [Hw' Hm].
    rewrite Hw' in Hnormal |- *. unfold rerender in *. cbn [mounted ui] in *.
    change (mounted (run (handleFileChange files) w)) with (mounted w).
    by rewrite Hm, Hnormal.
  - destruct (step_clicked_inversion _ _ Hreach Hstep) as (Hw' & Hm & _).
    rewrite Hw' in Hnormal |- *. unfold rerender in *. cbn [mounted ui] in *.
    rewrite Hnormal.
    destruct (has_file (selectedFile (ui w))) eqn:Hfile.
    + destruct (selectedFile (ui w)) as [| | f]; [done | done |].
      rewrite run_handleUpload_with_file. cbn [mounted]. by rewrite Hm.
    + rewrite run_handleUpload_without_file by done. cbn [mounted].
      by rewrite Hm.
  - destruct (step_settled_inversion _ _ _ _ Hreach Hstep) as (_ & Hw' & _).
    pose proof (reachable_request_invariant _
                  (reachable_step _ _ _ Hreach Hstep)) as Hinv'.
    destruct Hinv' as [(Hl & _) | [_ Hp]].
    + rewrite Hw' in Hl. change (ui (rerender ?x)) with (ui x) in Hl.
      destruct (run_upload_continuation s (take_pending 0 w)) as [Hl' _].
      congruence.
    + rewrite Hw' in Hp. change (pending (rerender ?x)) with (pending x) in Hp.
      rewrite Hw' in Hnormal. change (ui (rerender ?x)) with (ui x) in Hnormal.
      destruct (step_settled_inversion _ _ _ _ Hreach Hstep)
        as (_ & _ & Hpw & _).
      destruct IH as [Hm | Hnil]; [| congruence].
      rewrite Hw'. unfold rerender. cbn [mounted].
      destruct (run_upload_continuation s (take_pending 0 w))
        as (_ & _ & _ & _ & ->).
      change (mounted (take_pending 0 w)) with (mounted w).
      by rewrite Hm, Hnormal.
Qed.

(** After a settlement, a tree that is there carries an enabled button, and
    the button takes clicks. *)
Lemma settled_control (w w' : world) (i : nat) (s : settled) (tree : node) :
  reachable w ->
  step (PostSettled i s) w = Some w' ->
  App (ui w') = Normal tree ->
  button_disabled tree = Some false /\ clickable w' = true.
Proof.
  intros Hreach Hstep Htree.
  destruct (step_settled_inversion _ _ _ _ Hreach Hstep)
    as (_ & Hw' & Hp & _).
  assert (Hm : mounted w = true).
  { destruct (reachable_mounted_while_pending _ Hreach); [done | congruence]. }
  assert (Hl : loading (ui w') = false).
  { rewrite Hw'. change (ui (rerender ?x)) with (ui x).
    by destruct (run_upload_continuation s (take_pending 0 w)) as [? _]. }
  assert (Hb : button_disabled tree = Some false).
  { by rewrite (App_button_disabled _ _ Htree), Hl. }
  split; [exact Hb |].
  assert (Hm' : mounted w' = true).
  { rewrite Hw'. unfold rerender. cbn [mounted].
    rewrite Hw' in Htree. change (ui (rerender ?x)) with (ui x) in Htree.
    rewrite Htree.
    destruct (run_upload_continuation s (take_pending 0 w))
      as (_ & _ & _ & _ & ->).
    change (mounted (take_pending 0 w)) with (mounted w).
    by rewrite Hm. }
  unfold clickable. rewrite Hm', Htree, Hb. done.
Qed.

Lemma crashed_world_reachable : reachable crashed_world.
Proof.
  apply (steps_reachable
           [FileChosen [sample_file]; SubmitClicked;
            PostSettled 0
              (Fulfilled {| status := 200;
                            data := analysis_without_key_sections |})]
           initial_world); [constructor |].
  vm_compute. reflexivity.
Qed.

(** C8, as the code has it: in every reachable world the submit control of
    a rendered tree is disabled exactly when [loading] holds, and a click
    cannot occur then; every settlement of the awaited request, success or
    failure, leaves [loading] false and nothing awaited; after every failure
    the page is shown again with the control enabled, and so it is after
    every success whose body is falsy or presentable; and at most one
    request is awaited, one exactly while [loading] holds. *)
Theorem submit_disabled_while_loading (w : world) :
  reachable w ->
  (forall tree,
     App (ui w) = Normal tree ->
     button_disabled tree = Some (loading (ui w))) /\
  (loading (ui w) = true -> step SubmitClicked w = None) /\
  (forall i s w',
     step (PostSettled i s) w = Some w' ->
     loading (ui w') = false /\ pending w' = []) /\
  (forall i err w',
     step (PostSettled i (Rejected err)) w = Some w' ->
     exists tree,
       App (ui w') = Normal tree /\
       displayable tree = true /\
       button_disabled tree = Some false /\
       clickable w' = true) /\
  (forall i resp w',
     step (PostSettled i (Fulfilled resp)) w = Some w' ->
     (truthy (data resp) = true -> presentable_result (data resp)) ->
     exists tree,
       App (ui w') = Normal tree /\
       displayable tree = true /\
       button_disabled tree = Some false /\
       clickable w' = true) /\
  (length (pending w) <= 1)%nat /\
  (length (pending w) = 1%nat <-> loading (ui w) = true).
Proof.
  intros Hreach.
  pose proof (reachable_request_invariant _ Hreach) as Hinv.
  split; [exact (App_button_disabled (ui w)) |].
  split.
  { intros Hload. unfold step.
    destruct (clickable w) eqn:Hclick; [| done].
    rewrite (clickable_not_loading _ Hclick) in Hload. done. }
  split.
  { intros i s w' Hstep.
    destruct (step_settled_inversion _ _ _ _ Hreach Hstep)
      as (_ & Hw' & Hp & _).
    rewrite Hw'.
    change (ui (rerender ?x)) with (ui x).
    change (pending (rerender ?x)) with (pending x).
    destruct (run_upload_continuation s (take_pending 0 w))
      as (-> & _ & -> & _).
    split; [done |]. cbn. by rewrite Hp. }
  split.
  { intros i err w' Hstep.
    destruct (step_settled_inversion _ _ _ _ Hreach Hstep)
      as (_ & Hw' & _ & _ & Hres & _).
    assert (Hnull : analysisResult (ui w') = VNull).
    { rewrite Hw'. change (ui (rerender ?x)) with (ui x).
      by rewrite run_upload_continuation_rejected. }
    destruct (App_of_presentable_result (ui w')) as (tree & Htree & Hd).
    { by rewrite Hnull. }
    destruct (settled_control _ _ _ _ _ Hreach Hstep Htree) as [Hb Hc].
    by exists tree. }
  split.
  { intros i resp w' Hstep Hpresentable.
    destruct (step_settled_inversion _ _ _ _ Hreach Hstep) as (_ & Hw' & _).
    assert (Hdata : analysisResult (ui w') = data resp).
    { rewrite Hw'. change (ui (rerender ?x)) with (ui x).
      by rewrite run_upload_continuation_fulfilled. }
    destruct (App_of_presentable_result (ui w')) as (tree & Htree & Hd).
    { by rewrite Hdata. }
    destruct (settled_control _ _ _ _ _ Hreach Hstep Htree) as [Hb Hc].
    by exists tree. }
  destruct Hinv as [(Hl & Hp & _) | [Hl Hp]]; rewrite Hp, Hl; cbn.
  - split; [lia | done].
  - split; [lia |]. split; done.
Qed.

End Component.

(** * Concrete runs *)

(** A submit in the initial world, where nothing is selected. *)
Lemma submit_without_file_witness :
  has_file (selectedFile (ui initial_world)) = false /\
  posted (run (handleUpload (selectedFile (ui initial_world))) initial_world)
    = [] /\
  error (ui (run (handleUpload (selectedFile (ui initial_world)))
               initial_world))
    = Some "Please select a resume file.".
Proof.
  split; [reflexivity |].
  destruct (submit_without_file initial_world eq_refl) as (Hposted & _ & Herr & _).
  split; [exact Hposted | exact Herr].
Defined.

(** A submit right after the sample file has been chosen. *)
Lemma submit_with_file_witness :
  let w := run (handleFileChange [sample_file]) initial_world in
  selectedFile (ui w) = SelFile sample_file /\
  posted (run (handleUpload (selectedFile (ui w))) w) =
    [{| method := "POST";
        url := "http://localhost:5000/analyze/";
        body := [("file", sample_file)];
        headers := [("Content-Type", "multipart/form-data")] |}].
Proof.
  cbv zeta. split; [reflexivity |].
  exact (proj1 (submit_with_file
                  (run (handleFileChange [sample_file]) initial_world)
                  sample_file eq_refl)).
Defined.

(** The awaited request for the sample file fails with a server error. *)
Lemma failed_request_outcome_witness :
  reachable never_positive awaiting_world /\
  exists w',
    step never_positive (PostSettled 0 (Rejected server_error)) awaiting_world
      = Some w' /\
    loading (ui w') = false /\
    error (ui w') =
      Some "Failed to upload and analyze the resume. Please try again." /\
    analysisResult (ui w') = VNull.
Proof.
  split; [exact (awaiting_world_reachable never_positive) |].
  eexists. split; [reflexivity |].
  destruct (failed_request_outcome never_positive awaiting_world
              (awaiting_world_reachable never_positive)) as [Hfail _].
  destruct (Hfail 0%nat server_error _ eq_refl) as (Hl & He & Hr & _).
  split; [exact Hl | split; [exact He | exact Hr]].
Defined.

(** The no-file branch in the initial world and the file branch once the
    sample file has been chosen. *)
Lemma submit_resets_when_file_selected_witness :
  let w := run (handleFileChange [sample_file]) initial_world in
  (has_file (selectedFile (ui w)) = true /\
   error (ui (run (handleUpload (selectedFile (ui w))) w)) = None /\
   analysisResult (ui (run (handleUpload (selectedFile (ui w))) w)) = VNull) /\
  (has_file (selectedFile (ui stale_result_world)) = false /\
   analysisResult
     (ui (run (handleUpload (selectedFile (ui stale_result_world)))
            stale_result_world)) = sample_response).
Proof.
  cbv zeta. split.
  - split; [reflexivity |].
    destruct (proj1 (submit_resets_when_file_selected
                       (run (handleFileChange [sample_file]) initial_world))
                eq_refl) as (He & Hr & _).
    split; [exact He | exact Hr].
  - split; [reflexivity |].
    destruct (proj2 (submit_resets_when_file_selected stale_result_world)
                eq_refl) as (_ & Hr & _).
    exact Hr.
Defined.

(** With no file selected, a result on display and an earlier error, a
    submit attempt clears neither the error nor the result: both are what
    they were before the attempt. *)
Lemma stale_result_survives_submit :
  let w' := run (handleUpload (selectedFile (ui stale_result_world)))
              stale_result_world in
  has_file (selectedFile (ui stale_result_world)) = false /\
  error (ui w') ≠ None /\
  analysisResult (ui w') ≠ VNull /\
  error (ui w') = error (ui stale_result_world) /\
  analysisResult (ui w') = analysisResult (ui stale_result_world).
Proof. cbv zeta. repeat split; discriminate. Qed.

(** The suggestions block of the sample response. *)
Lemma suggestions_block_iff_nonempty_witness :
  truthy sample_response = true /\
  exists n,
    suggestions_block never_positive sample_response = Normal n /\
    is_block "improvement-suggestions" n = true /\
    length (children_of n) = 2%nat.
Proof.
  split; [reflexivity |].
  destruct (suggestions_block_iff_nonempty never_positive sample_response
              eq_refl) as (Hblock & _).
  eexists. split; [vm_compute; reflexivity |].
  destruct (Hblock _ eq_refl) as (Hiff & _).
  split; [| reflexivity].
  apply Hiff. eexists. split; [vm_compute; reflexivity | discriminate].
Defined.

(** The extracted-text block of the sample response. *)
Lemma extracted_text_block_iff_truthy_witness :
  truthy sample_response = true /\
  exists n,
    extracted_text_block sample_response = Normal n /\
    is_block "extracted-text" n = true.
Proof.
  split; [reflexivity |].
  destruct (extracted_text_block_iff_truthy never_positive sample_response
              eq_refl) as (n & Hn & Hblock & _).
  exists n. split; [exact Hn | exact Hblock].
Defined.

(** A response with [analysis] but without [key_sections]. *)
Lemma key_sections_block_needs_key_sections_witness :
  truthy analysis_without_key_sections = true /\
  truthy (read analysis_without_key_sections "analysis") = true /\
  key_sections_block analysis_without_key_sections = Throw TypeError /\
  App never_positive
    {| selectedFile := SelFile sample_file;
       analysisResult := analysis_without_key_sections;
       loading := false;
       error := None |} = Throw TypeError.
Proof.
  split; [reflexivity |]. split; [reflexivity |].
  destruct (key_sections_block_needs_key_sections never_positive
              analysis_without_key_sections eq_refl eq_refl)
    as (Hthrow & _).
  destruct (Hthrow eq_refl) as [Hblock Happ].
  split; [exact Hblock | apply Happ; reflexivity].
Defined.

(** The awaited request for the sample file succeeds. *)
Lemma successful_request_outcome_witness :
  reachable never_positive awaiting_world /\
  exists w',
    step never_positive (PostSettled 0 (Fulfilled sample_ok_response))
      awaiting_world = Some w' /\
    analysisResult (ui w') = sample_response /\
    loading (ui w') = false /\
    error (ui w') = None.
Proof.
  split; [exact (awaiting_world_reachable never_positive) |].
  eexists. split; [reflexivity |].
  destruct (successful_request_outcome never_positive awaiting_world
              (awaiting_world_reachable never_positive)
              0%nat sample_ok_response _ eq_refl) as (Hr & Hl & He & _).
  split; [exact Hr | split; [exact Hl | exact He]].
Defined.

(** What a server error writes to the console. *)
Lemma console_written_on_failure_only_witness :
  reachable never_positive awaiting_world /\
  exists w',
    step never_positive (PostSettled 0 (Rejected server_error))
      awaiting_world = Some w' /\
    console w' =
      [("Error uploading resume:", LogError server_error);
       ("Backend error:", LogValue (VStr "Internal error"))].
Proof.
  split; [exact (awaiting_world_reachable never_positive) |].
  eexists. split; [reflexivity |].
  exact (console_written_on_failure_only never_positive awaiting_world
           (awaiting_world_reachable never_positive)
           (PostSettled 0 (Rejected server_error)) _ eq_refl).
Defined.

(** The error of the world with a refused attempt. *)
Lemma error_is_a_fixed_message_witness :
  reachable never_positive stale_result_world /\
  known_error (error (ui stale_result_world)) /\
  error_paragraph (error (ui stale_result_world)) =
    Elem "p" (className "error-message")
      [Text "Please select a resume file."].
Proof.
  split; [exact (stale_result_world_reachable never_positive) |].
  exact (error_is_a_fixed_message never_positive stale_result_world
           (stale_result_world_reachable never_positive)).
Defined.

(** The request issued for the sample file. *)
Lemma every_request_is_an_analyze_post_witness :
  reachable never_positive awaiting_world /\
  Forall analyze_request (posted awaiting_world).
Proof.
  split; [exact (awaiting_world_reachable never_positive) |].
  exact (proj1 (every_request_is_an_analyze_post never_positive
                  awaiting_world
                  (awaiting_world_reachable never_positive))).
Defined.

(** The empty object. *)
Lemma results_section_without_blocks_witness :
  truthy (VObj ∅) = true /\
  results_section never_positive (VObj ∅) =
  Normal (Elem "div" (className "results-section")
            [Elem "h2" [] [Text "Analysis Results"];
             Val VUndefined; Val VUndefined; Val VUndefined]).
Proof.
  split; [reflexivity |].
  exact (proj1 (results_section_without_blocks never_positive (VObj ∅)
                  eq_refl) eq_refl eq_refl eq_refl).
Defined.

(** The key-sections block of the sample response. *)
Lemma key_sections_block_lines_witness :
  truthy sample_response = true /\
  truthy (read sample_response "analysis") = true /\
  exists education experience skills,
    key_sections_block sample_response =
    Normal (Elem "div" (className "key-sections-analysis")
              [Elem "h3" [] [Text "Key Sections Analysis"];
               Elem "p" [] education;
               Elem "p" [] experience;
               Elem "p" [] skills]) /\
    line_text education = Some "Education Present: Yes" /\
    line_text experience = Some "Experience Present: No" /\
    line_text skills = Some "Skills Present: Yes".
Proof.
  split; [reflexivity |]. split; [reflexivity |].
  destruct (proj2 (key_sections_block_lines sample_response eq_refl)
              eq_refl eq_refl)
    as (education & experience & skills & Hblock & H1 & H2 & H3 & _).
  exists education, experience, skills.
  split; [exact Hblock |].
  split; [exact H1 | split; [exact H2 | exact H3]].
Defined.

(** The page while the request for the sample file is awaited. *)
Lemma view_while_loading_witness :
  reachable never_positive awaiting_world /\
  loading (ui awaiting_world) = true /\
  is_normal (App never_positive (ui awaiting_world)) = true.
Proof.
  split; [exact (awaiting_world_reachable never_positive) |].
  split; [reflexivity |].
  rewrite (view_while_loading never_positive awaiting_world
             (awaiting_world_reachable never_positive) eq_refl).
  reflexivity.
Defined.

(** The sample file is posted, refused by the server, and posted again. *)
Lemma retry_after_failure_witness :
  reachable never_positive file_chosen_world /\
  exists w1 w2 w3,
    step never_positive SubmitClicked file_chosen_world = Some w1 /\
    step never_positive (PostSettled 0 (Rejected server_error)) w1
      = Some w2 /\
    step never_positive SubmitClicked w2 = Some w3 /\
    posted w3 = [upload_request sample_file; upload_request sample_file] /\
    error (ui w3) = None.
Proof.
  split; [exact (file_chosen_world_reachable never_positive) |].
  destruct (retry_after_failure never_positive file_chosen_world
              _ _ sample_file server_error
              (file_chosen_world_reachable never_positive)
              eq_refl eq_refl eq_refl)
    as (w3 & Hstep & Hposted & _ & _ & Herr).
  eexists _, _, w3.
  split; [reflexivity |]. split; [reflexivity |].
  split; [exact Hstep |]. split; [exact Hposted | exact Herr].
Defined.

(** A state holding the sample response is shown. *)
Lemma App_renders_presentable_result_witness :
  presentable_result sample_response /\
  exists tree,
    App never_positive
      {| selectedFile := SelFile sample_file;
         analysisResult := sample_response;
         loading := false;
         error := None |} = Normal tree /\
    displayable tree = true.
Proof.
  assert (Hpresentable : presentable_result sample_response).
  { split; [intros _; reflexivity |].
    split; [intros _; reflexivity |].
    right. eexists. split; [reflexivity |].
    constructor; [split; reflexivity | constructor]. }
  split; [exact Hpresentable |].
  destruct (App_renders_presentable_result never_positive
              {| selectedFile := SelFile sample_file;
                 analysisResult := sample_response;
                 loading := false;
                 error := None |} (fun _ => Hpresentable))
    as (tree & Htree & Hd & _).
  exists tree. split; [exact Htree | exact Hd].
Defined.

(** A response whose second suggestion is [null]. *)
Lemma suggestions_block_throws_witness :
  truthy suggestions_with_null = true /\
  suggestions_block never_positive suggestions_with_null = Throw TypeError.
Proof.
  split; [reflexivity |].
  apply (suggestions_block_throws never_positive suggestions_with_null
           eq_refl).
  left. eexists. split; [reflexivity |].
  apply Exists_cons_tl, Exists_cons_hd. reflexivity.
Defined.

(** A click with the sample file selected keeps the selection. *)
Lemma selection_changes_by_file_input_only_witness :
  reachable never_positive file_chosen_world /\
  exists w',
    step never_positive SubmitClicked file_chosen_world = Some w' /\
    selectedFile (ui w') = SelFile sample_file.
Proof.
  split; [exact (file_chosen_world_reachable never_positive) |].
  eexists. split; [reflexivity |].
  exact (selection_changes_by_file_input_only never_positive
           file_chosen_world (file_chosen_world_reachable never_positive)
           SubmitClicked _ eq_refl).
Defined.

(** While the request for the sample file is awaited no click occurs; after
    a server error, and after the sample response, the button is enabled
    again. *)
Lemma submit_disabled_while_loading_witness :
  reachable never_positive awaiting_world /\
  step never_positive SubmitClicked awaiting_world = None /\
  (exists w',
     step never_positive (PostSettled 0 (Rejected server_error))
       awaiting_world = Some w' /\
     clickable never_positive w' = true) /\
  (exists w',
     step never_positive (PostSettled 0 (Fulfilled sample_ok_response))
       awaiting_world = Some w' /\
     clickable never_positive w' = true) /\
  (length (pending awaiting_world) <= 1)%nat.
Proof.
  split; [exact (awaiting_world_reachable never_positive) |].
  destruct (submit_disabled_while_loading never_positive awaiting_world
              (awaiting_world_reachable never_positive))
    as (_ & Hclick & _ & Hfail & Hok & Hle & _).
  split; [exact (Hclick eq_refl) |].
  split.
  { eexists. split; [reflexivity |].
    destruct (Hfail 0%nat server_error _ eq_refl) as (tree & _ & _ & _ & Hc).
    exact Hc. }
  split; [| exact Hle].
  eexists. split; [reflexivity |].
  assert (Hpresentable : truthy (data sample_ok_response) = true ->
                         presentable_result (data sample_ok_response)).
  { intros _. split; [intros _; reflexivity |].
    split; [intros _; reflexivity |].
    right. eexists. split; [reflexivity |].
    constructor; [split; reflexivity | constructor]. }
  destruct (Hok 0%nat sample_ok_response _ eq_refl Hpresentable)
    as (tree & _ & _ & _ & Hc).
  exact Hc.
Defined.

(** After a successful answer whose [analysis] lacks [key_sections] the
    request is complete and [loading] is false, but the component throws,
    no tree is left and the submit control takes no click. *)
Lemma control_lost_after_unreadable_success :
  reachable never_positive awaiting_world /\
  step never_positive
    (PostSettled 0 (Fulfilled {| status := 200;
                                 data := analysis_without_key_sections |}))
    awaiting_world = Some crashed_world /\
  loading (ui crashed_world) = false /\
  App never_positive (ui crashed_world) = Throw TypeError /\
  clickable never_positive crashed_world = false /\
  step never_positive SubmitClicked crashed_world = None.
Proof.
  split; [exact (awaiting_world_reachable never_positive) |].
  repeat split; vm_compute; reflexivity.
Qed.
